(** * Xea front end: the job tracker of [App], [EvidencePanel] and [LiveDashboard]

    A shallow embedding of the React components that follow a validation job
    (polling fallback, stream completion, aggregation, attestation), with the
    properties the specification states about them, and of what surrounds
    them: the proposal form, the table of claims, the shortened identifiers
    of the evidence panel.

    React state is modelled by explicit state passing: one record per
    component, one event per callback that React, a timer or the network can
    run, and a [commit] function for the effects that run after a render. *)

From stdpp Require Import gmap strings list.
From Stdlib Require QArith_base.

Open Scope string_scope.
Open Scope list_scope.
Open Scope Z_scope.

(** ** The wire types of [api.ts] *)

(** A JavaScript [number] that the tracker only carries around. *)
Definition number : Type := QArith_base.Q.

Module ClaimCanonical.
Record t := mk { numbers : list number; addresses : list string; urls : list string }.
End ClaimCanonical.

Inductive ClaimType := factual | numeric | temporal | comparative | procedural | conditional.

Module Claim.
Record t := mk {
  id : string;
  text : string;
  paragraph_index : Z;
  char_range : Z * Z;
  type : ClaimType;
  canonical : ClaimCanonical.t
}.
End Claim.

Record MinerScores := {
  accuracy : number;
  omission_risk : number;
  evidence_quality : number;
  governance_relevance : number;
  composite : number
}.

Inductive Verdict := verified | refuted | unverifiable | partial.

Record MinerResponse := {
  miner_id : string;
  claim_id : string;
  verdict : Verdict;
  rationale : string;
  evidence_links : list string;
  embedding : option (list number);
  scores : MinerScores
}.

Module IngestResponse.
Record t := mk {
  proposal_hash : string;
  canonical_text : string;
  claims : list Claim.t
}.
End IngestResponse.

Inductive JobStatus := queued | running | completed | failed.

Module ValidateResponse.
Record t := mk {
  job_id : string;
  proposal_hash : string;
  status : JobStatus;
  created_at : string;
  estimated_completion : option string
}.
End ValidateResponse.

Record JobProgress := {
  claims_total : Z;
  claims_validated : Z;
  miners_contacted : Z;
  miners_responded : Z
}.

Module StatusResponse.
Record t := mk {
  job_id : string;
  status : JobStatus;
  progress : JobProgress;
  partial_results : list MinerResponse;
  ready_for_aggregation : bool
}.
End StatusResponse.

Inductive Recommendation := supported | disputed | supported_with_caution.

Module ClaimAggregation.
Record t := mk {
  id : string;
  text : string;
  poi_agreement : number;
  mode_verdict : string;
  embedding_dispersion : number;
  pouw_mean : number;
  pouw_ci_95 : number * number;
  outliers : list string;
  final_recommendation : Recommendation;
  miner_responses : list MinerResponse
}.
End ClaimAggregation.

Module EvidenceBundle.
Record t := mk {
  proposal_hash : string;
  job_id : string;
  claims : list ClaimAggregation.t;
  overall_poi_agreement : number;
  overall_pouw_score : number;
  overall_ci_95 : number * number;
  critical_flags : list string;
  timestamp : string
}.
End EvidenceBundle.

Module AggregateResponse.
Record t := mk {
  job_id : string;
  evidence_bundle : EvidenceBundle.t;
  ipfs_cid : option string
}.
End AggregateResponse.

Module AttestResponse.
Record t := mk {
  job_id : string;
  proposal_hash : string;
  ipfs_cid : option string;
  signature : string;
  signer : string;
  message_hash : string;
  verification_instructions : string * string * string * string
}.
End AttestResponse.

#[global] Instance JobStatus_eq_dec : EqDecision JobStatus.
Proof. solve_decision. Defined.

(** The outcome of an awaited request: the response, or the rejection with
    what [err.response?.data?.detail] evaluates to. *)
Inductive outcome (A : Type) :=
| Resolved (a : A)
| Rejected (detail : option string).
Arguments Resolved {A} a.
Arguments Rejected {A} detail.

(** [detail || fallback] on an optional string: [undefined] and the empty
    string are falsy. *)
Definition or_default (detail : option string) (fallback : string) : string :=
  match detail with
  | Some s => if decide (s = "") then fallback else s
  | None => fallback
  end.

(** [!jobId] on [string | null]. *)
Definition falsy (j : option string) : bool :=
  match j with
  | Some s => bool_decide (s = "")
  | None => true
  end.

(** ** The response view of [App] (part_001, lines 27-36) *)

(** The accumulator of the [reduce] is an object literal, so a key that
    [Object.prototype] already defines is found (truthy) by [!acc[k]], is not
    initialised, and [acc[k].push] is then not a function: the render throws
    a TypeError. *)
Definition object_prototype_keys : list string :=
  [ "constructor"; "__defineGetter__"; "__defineSetter__"; "hasOwnProperty";
    "__lookupGetter__"; "__lookupSetter__"; "isPrototypeOf";
    "propertyIsEnumerable"; "toString"; "valueOf"; "__proto__";
    "toLocaleString" ].

(** One step of the [reduce] callback: [if (!acc[k]) acc[k] = [];
    acc[k].push(r)]. [None] is the TypeError. *)
Definition group_step (acc : gmap string (list MinerResponse)) (r : MinerResponse)
  : option (gmap string (list MinerResponse)) :=
  if bool_decide (claim_id r ∈ object_prototype_keys) then None
  else Some (<[claim_id r := default [] (acc !! claim_id r) ++ [r]]> acc).

Fixpoint group_from (acc : gmap string (list MinerResponse)) (rs : list MinerResponse)
  : option (gmap string (list MinerResponse)) :=
  match rs with
  | [] => Some acc
  | r :: rs' =>
      match group_step acc r with
      | Some acc' => group_from acc' rs'
      | None => None
      end
  end.

(** [new Map(Object.entries(polledResponses.reduce(..., {})))]: only [get]
    is ever used on the result, so the map is kept as a finite map. *)
Definition group_by_claim (rs : list MinerResponse)
  : option (gmap string (list MinerResponse)) :=
  group_from ∅ rs.

(** The three values of the map that [getClaimStatuses] returns. *)
Module ClaimStatus.
Inductive t := pending | validating | completed.
End ClaimStatus.

(** ** The component [App] (part_001) *)

Module App.

Inductive AppStage := input | validating | aggregating | complete.

#[global] Instance AppStage_eq_dec : EqDecision AppStage.
Proof. solve_decision. Defined.

(** Modelled from the spec: the hook [useJobStream] (./hooks/useJobStream) is
    not among the sources; [App] only reads the four fields of the value the
    hook returns. They are kept as a record that the environment replaces
    whenever the hook re-renders the component (a connect or disconnect
    transition, a decoded [status] or [miner_response] message). *)
Record Stream := {
  stream_connected : bool;
  stream_minerResponses : gmap string (list MinerResponse);
  stream_progress : JobProgress;
  stream_status : JobStatus
}.

(** The [useState] cells of [App] (lines 13-18, 24-25). *)
Record State := {
  stage : AppStage;
  proposal : option IngestResponse.t;
  jobId : option string;
  evidenceBundle : option EvidenceBundle.t;
  ipfsCid : option string;
  error : option string;
  polledProgress : option JobProgress;
  polledResponses : list MinerResponse
}.

Definition setStage (v : AppStage) (s : State) : State :=
  {| stage := v; proposal := proposal s; jobId := jobId s;
     evidenceBundle := evidenceBundle s; ipfsCid := ipfsCid s; error := error s;
     polledProgress := polledProgress s; polledResponses := polledResponses s |}.

Definition setProposal (v : option IngestResponse.t) (s : State) : State :=
  {| stage := stage s; proposal := v; jobId := jobId s;
     evidenceBundle := evidenceBundle s; ipfsCid := ipfsCid s; error := error s;
     polledProgress := polledProgress s; polledResponses := polledResponses s |}.

Definition setJobId (v : option string) (s : State) : State :=
  {| stage := stage s; proposal := proposal s; jobId := v;
     evidenceBundle := evidenceBundle s; ipfsCid := ipfsCid s; error := error s;
     polledProgress := polledProgress s; polledResponses := polledResponses s |}.

Definition setEvidenceBundle (v : option EvidenceBundle.t) (s : State) : State :=
  {| stage := stage s; proposal := proposal s; jobId := jobId s;
     evidenceBundle := v; ipfsCid := ipfsCid s; error := error s;
     polledProgress := polledProgress s; polledResponses := polledResponses s |}.

Definition setIpfsCid (v : option string) (s : State) : State :=
  {| stage := stage s; proposal := proposal s; jobId := jobId s;
     evidenceBundle := evidenceBundle s; ipfsCid := v; error := error s;
     polledProgress := polledProgress s; polledResponses := polledResponses s |}.

Definition setError (v : option string) (s : State) : State :=
  {| stage := stage s; proposal := proposal s; jobId := jobId s;
     evidenceBundle := evidenceBundle s; ipfsCid := ipfsCid s; error := v;
     polledProgress := polledProgress s; polledResponses := polledResponses s |}.

Definition setPolledProgress (v : option JobProgress) (s : State) : State :=
  {| stage := stage s; proposal := proposal s; jobId := jobId s;
     evidenceBundle := evidenceBundle s; ipfsCid := ipfsCid s; error := error s;
     polledProgress := v; polledResponses := polledResponses s |}.

Definition setPolledResponses (v : list MinerResponse) (s : State) : State :=
  {| stage := stage s; proposal := proposal s; jobId := jobId s;
     evidenceBundle := evidenceBundle s; ipfsCid := ipfsCid s; error := error s;
     polledProgress := polledProgress s; polledResponses := v |}.

(** The initial values given to [useState]. *)
Definition initial : State :=
  {| stage := input; proposal := None; jobId := None; evidenceBundle := None;
     ipfsCid := None; error := None; polledProgress := None;
     polledResponses := [] |}.

(** [const minerResponses = stream.connected ? stream.minerResponses : ...]
    (lines 27-36). [None]: the render throws. *)
Definition minerResponses (s : State) (h : Stream)
  : option (gmap string (list MinerResponse)) :=
  if stream_connected h then Some (stream_minerResponses h)
  else group_by_claim (polledResponses s).

(** [const progress = ...] (lines 38-43). *)
Definition progress (s : State) (h : Stream) : JobProgress :=
  if stream_connected h then stream_progress h
  else match polledProgress s with
       | Some p => p
       | None =>
           {| claims_total :=
                match proposal s with
                | Some p => Z.of_nat (length (IngestResponse.claims p))
                | None => 0
                end;
              claims_validated := 0; miners_contacted := 0; miners_responded := 0 |}
       end.

(** [evidenceBundle && evidenceBundle.claims.find(c => c.id === claim.id)]
    as a truth value: [find] returns the element, an object, or [undefined]. *)
Definition bundle_has_claim (b : option EvidenceBundle.t) (cid : string) : bool :=
  match b with
  | Some e => existsb (fun c => bool_decide (ClaimAggregation.id c = cid)) (EvidenceBundle.claims e)
  | None => false
  end.

(** The body of the [forEach] callback of [getClaimStatuses] (lines 112-119),
    as the value it stores under [claim.id]. *)
Definition claim_status (s : State) (view : gmap string (list MinerResponse))
    (cid : string) : ClaimStatus.t :=
  let responses := default [] (view !! cid) in
  if bool_decide (stage s = complete) || bundle_has_claim (evidenceBundle s) cid
  then ClaimStatus.completed
  else if bool_decide (0 < Z.of_nat (length responses))
  then ClaimStatus.validating
  else ClaimStatus.pending.

(** [getClaimStatuses] (lines 107-123). *)
Definition getClaimStatuses (s : State) (view : gmap string (list MinerResponse))
  : gmap string ClaimStatus.t :=
  match proposal s with
  | None => ∅
  | Some p =>
      foldl (fun statuses claim => <[Claim.id claim := claim_status s view (Claim.id claim)]> statuses)
            ∅ (IngestResponse.claims p)
  end.

(** *** The component at run time

    Besides the state cells, what the claims are about: the interval that the
    poll effect installed, the requests in flight (each with the [jobId] its
    closure captured at the render that issued it), the dependency values
    React remembers for the two effects, and a trace of the calls made. *)

Inductive Call :=
| CallValidate (proposal_hash : string)
| CallGetStatus (job : string)
| CallAggregate (job : string) (publish : bool).

Record Runtime := {
  st : State;
  stream : Stream;
  (** [[stage, jobId, stream.connected]] at the last run of the poll effect *)
  poll_deps : AppStage * option string * bool;
  (** [[stream.status]] at the last run of the completion effect *)
  completion_dep : JobStatus;
  (** the live [setInterval(poll, 2000)], with the [jobId] of its closure *)
  interval : option string;
  (** [api.validate] requests in flight *)
  validates : list string;
  (** [api.getStatus] requests in flight *)
  polls : list string;
  (** [api.aggregate] requests in flight *)
  aggregates : list string;
  calls : list Call;
  (** number of [console.error] lines *)
  console : nat
}.

Definition with_st (f : State -> State) (w : Runtime) : Runtime :=
  {| st := f (st w); stream := stream w; poll_deps := poll_deps w;
     completion_dep := completion_dep w; interval := interval w;
     validates := validates w; polls := polls w; aggregates := aggregates w;
     calls := calls w; console := console w |}.

Definition with_stream (h : Stream) (w : Runtime) : Runtime :=
  {| st := st w; stream := h; poll_deps := poll_deps w;
     completion_dep := completion_dep w; interval := interval w;
     validates := validates w; polls := polls w; aggregates := aggregates w;
     calls := calls w; console := console w |}.

Definition with_poll_effect (d : AppStage * option string * bool) (i : option string)
    (w : Runtime) : Runtime :=
  {| st := st w; stream := stream w; poll_deps := d;
     completion_dep := completion_dep w; interval := i;
     validates := validates w; polls := polls w; aggregates := aggregates w;
     calls := calls w; console := console w |}.

Definition with_completion_dep (d : JobStatus) (w : Runtime) : Runtime :=
  {| st := st w; stream := stream w; poll_deps := poll_deps w;
     completion_dep := d; interval := interval w;
     validates := validates w; polls := polls w; aggregates := aggregates w;
     calls := calls w; console := console w |}.

Definition with_validates (l : list string) (w : Runtime) : Runtime :=
  {| st := st w; stream := stream w; poll_deps := poll_deps w;
     completion_dep := completion_dep w; interval := interval w;
     validates := l; polls := polls w; aggregates := aggregates w;
     calls := calls w; console := console w |}.

Definition with_polls (l : list string) (w : Runtime) : Runtime :=
  {| st := st w; stream := stream w; poll_deps := poll_deps w;
     completion_dep := completion_dep w; interval := interval w;
     validates := validates w; polls := l; aggregates := aggregates w;
     calls := calls w; console := console w |}.

Definition with_aggregates (l : list string) (w : Runtime) : Runtime :=
  {| st := st w; stream := stream w; poll_deps := poll_deps w;
     completion_dep := completion_dep w; interval := interval w;
     validates := validates w; polls := polls w; aggregates := l;
     calls := calls w; console := console w |}.

Definition record_call (c : Call) (w : Runtime) : Runtime :=
  {| st := st w; stream := stream w; poll_deps := poll_deps w;
     completion_dep := completion_dep w; interval := interval w;
     validates := validates w; polls := polls w; aggregates := aggregates w;
     calls := calls w ++ [c]; console := console w |}.

Definition console_error (w : Runtime) : Runtime :=
  {| st := st w; stream := stream w; poll_deps := poll_deps w;
     completion_dep := completion_dep w; interval := interval w;
     validates := validates w; polls := polls w; aggregates := aggregates w;
     calls := calls w; console := S (console w) |}.

(** The requests the component starts: the call is made when the [await]
    expression is evaluated, its continuation runs at a later event. *)
Definition issue_validate (h : string) (w : Runtime) : Runtime :=
  record_call (CallValidate h) (with_validates (validates w ++ [h]) w).

Definition issue_getStatus (j : string) (w : Runtime) : Runtime :=
  record_call (CallGetStatus j) (with_polls (polls w ++ [j]) w).

Definition issue_aggregate (j : string) (w : Runtime) : Runtime :=
  record_call (CallAggregate j true) (with_aggregates (aggregates w ++ [j]) w).

(** [handleValidationComplete] up to its [await] (lines 91-97). [closure_jobId]
    is the [jobId] of the render that created the function being called. *)
Definition handleValidationComplete (closure_jobId : option string) (w : Runtime)
  : Runtime :=
  match closure_jobId with
  | Some j =>
      if falsy closure_jobId then w
      else issue_aggregate j (with_st (setStage aggregating) w)
  | None => w
  end.

(** The continuation of [handleValidationComplete] after the [await]
    (lines 98-104). The setters write the current state whatever it is. *)
Definition aggregate_settled (r : outcome AggregateResponse.t) (w : Runtime) : Runtime :=
  match r with
  | Resolved a =>
      with_st (fun s =>
        setStage complete
          (setIpfsCid (AggregateResponse.ipfs_cid a)
            (setEvidenceBundle (Some (AggregateResponse.evidence_bundle a)) s))) w
  | Rejected detail =>
      with_st (fun s =>
        setStage validating
          (setError (Some (or_default detail "Failed to aggregate results")) s)) w
  end.

(** [handleIngestComplete] up to its [await] (lines 76-82). *)
Definition handleIngestComplete (result : IngestResponse.t) (autoValidate : bool)
    (w : Runtime) : Runtime :=
  let w1 := with_st (fun s => setError None (setProposal (Some result) s)) w in
  if autoValidate then issue_validate (IngestResponse.proposal_hash result) w1 else w1.

(** Its continuation (lines 83-87). *)
Definition validate_settled (r : outcome ValidateResponse.t) (w : Runtime) : Runtime :=
  match r with
  | Resolved v =>
      with_st (fun s => setStage validating (setJobId (Some (ValidateResponse.job_id v)) s)) w
  | Rejected detail =>
      with_st (setError (Some (or_default detail "Failed to start validation"))) w
  end.

(** The continuation of [poll] after [await api.getStatus(jobId)]
    (lines 52-60); [j] is the [jobId] of the render whose effect created
    [poll], which is also the one its [handleValidationComplete] closes over. *)
Definition poll_settled (j : string) (r : outcome StatusResponse.t) (w : Runtime) : Runtime :=
  match r with
  | Resolved s =>
      let w1 :=
        with_st (fun a =>
          setPolledResponses (StatusResponse.partial_results s)
            (setPolledProgress (Some (StatusResponse.progress s)) a)) w in
      if bool_decide (StatusResponse.status s = completed)
      then handleValidationComplete (Some j) w1
      else w1
  | Rejected _ => console_error w
  end.

(** [handleReset] (lines 125-134). *)
Definition handleReset (w : Runtime) : Runtime :=
  with_st (fun s =>
    setPolledResponses []
      (setPolledProgress None
        (setError None
          (setIpfsCid None
            (setEvidenceBundle None
              (setJobId None
                (setProposal None
                  (setStage input s)))))))) w.

(** The poll effect (lines 46-67): React runs it after a render whose
    [[stage, jobId, stream.connected]] differ from those of its last run,
    after the clean-up of that last run ([clearInterval]). *)
Definition poll_effect (w : Runtime) : Runtime :=
  let d := (stage (st w), jobId (st w), stream_connected (stream w)) in
  if decide (d = poll_deps w) then w
  else
    let w1 := with_poll_effect d None w in
    match jobId (st w) with
    | Some j =>
        if bool_decide (stage (st w) ≠ validating) || falsy (jobId (st w))
           || stream_connected (stream w)
        then w1
        else issue_getStatus j (with_poll_effect d (Some j) w)
    | None => w1
    end.

(** The completion effect (lines 70-74), with [[stream.status]] as its
    dependencies. *)
Definition completion_effect (w : Runtime) : Runtime :=
  if decide (stream_status (stream w) = completion_dep w) then w
  else
    let w1 := with_completion_dep (stream_status (stream w)) w in
    if bool_decide (stream_status (stream w) = completed)
       && bool_decide (stage (st w) = validating)
    then handleValidationComplete (jobId (st w)) w1
    else w1.

(** The effects of one commit, in the order the component declares them.
    The poll effect writes no state cell, so both read the same render. *)
Definition effects_pass (w : Runtime) : Runtime :=
  completion_effect (poll_effect w).

(** The completion effect may call [setStage], which renders again: the
    second pass then only cleans the poll effect up. A third pass would find
    no dependency changed ([commit_stable] below). *)
Definition commit (w : Runtime) : Runtime :=
  effects_pass (effects_pass w).

(** What can happen to the mounted component. *)
Inductive Event :=
| IngestComplete (result : IngestResponse.t) (autoValidate : bool)
| ValidateSettled (k : nat) (r : outcome ValidateResponse.t)
| Tick
| PollSettled (k : nat) (r : outcome StatusResponse.t)
| AggregateSettled (k : nat) (r : outcome AggregateResponse.t)
| StreamChanged (h : Stream)
| Reset.

(** The callback that the event runs, on the state as it is then. A settle
    event names the request in flight by its position; it does nothing when
    there is no such request, and the interval only fires while installed. *)
Definition handle (w : Runtime) (e : Event) : Runtime :=
  match e with
  | IngestComplete result autoValidate => handleIngestComplete result autoValidate w
  | ValidateSettled k r =>
      match validates w !! k with
      | Some _ => validate_settled r (with_validates (delete k (validates w)) w)
      | None => w
      end
  | Tick =>
      match interval w with
      | Some j => issue_getStatus j w
      | None => w
      end
  | PollSettled k r =>
      match polls w !! k with
      | Some j => poll_settled j r (with_polls (delete k (polls w)) w)
      | None => w
      end
  | AggregateSettled k r =>
      match aggregates w !! k with
      | Some _ => aggregate_settled r (with_aggregates (delete k (aggregates w)) w)
      | None => w
      end
  | StreamChanged h => with_stream h w
  | Reset => handleReset w
  end.

(** Whether the render after the callback returns or throws. *)
Definition renders (w : Runtime) : bool :=
  bool_decide (is_Some (minerResponses (st w) (stream w))).

(** One event: the callback, the render, the effects. [None]: the render
    threw and React unmounted the tree. *)
Definition step (w : Runtime) (e : Event) : option Runtime :=
  let w1 := handle w e in
  if renders w1 then Some (commit w1) else None.

Fixpoint run (w : Runtime) (es : list Event) : option Runtime :=
  match es with
  | [] => Some w
  | e :: es' =>
      match step w e with
      | Some w' => run w' es'
      | None => None
      end
  end.

(** The component after its first render and the first run of both effects,
    given what the hook returned at that render: in stage [input] the poll
    effect returns at once and the completion effect does nothing. *)
Definition mount (h : Stream) : Runtime :=
  {| st := initial; stream := h;
     poll_deps := (input, None, stream_connected h);
     completion_dep := stream_status h;
     interval := None; validates := []; polls := []; aggregates := [];
     calls := []; console := 0 |}.

(** The dependency values of the poll effect at the current render. *)
Definition deps_of (w : Runtime) : AppStage * option string * bool :=
  (stage (st w), jobId (st w), stream_connected (stream w)).

(** The interval that a run of the poll effect with dependencies [d] leaves
    installed. *)
Definition timer_of (d : AppStage * option string * bool) : option string :=
  match d with
  | (validating, Some j, false) => if bool_decide (j = "") then None else Some j
  | _ => None
  end.

(** A runtime between two events: both effects have run on the current
    render, and the interval is the one the poll effect left. Every state
    that [step] returns is of this kind ([step_settled]). *)
Definition settled (w : Runtime) : Prop :=
  poll_deps w = deps_of w
  /\ completion_dep w = stream_status (stream w)
  /\ interval w = timer_of (poll_deps w).

(** The completion effect calls [handleValidationComplete] exactly when the
    stream's status has just changed to completed in stage [validating]. *)
Definition completion_fires (w : Runtime) : Prop :=
  stream_status (stream w) <> completion_dep w
  /\ stream_status (stream w) = completed
  /\ stage (st w) = validating.

(** A call that names a job: [getStatus] and [aggregate] carry a non-empty
    job id, and [aggregate] is always asked to publish. *)
Definition call_well_formed (c : Call) : Prop :=
  match c with
  | CallValidate _ => True
  | CallGetStatus j => j <> ""
  | CallAggregate j publish => j <> "" /\ publish = true
  end.

Definition well_formed_calls (w : Runtime) : Prop :=
  Forall call_well_formed (calls w)
  /\ Forall (fun j => j <> "") (polls w)
  /\ Forall (fun j => j <> "") (aggregates w).

(** The completion effect fires and has a job id to aggregate. *)
Definition completion_calls_aggregate (w : Runtime) : Prop :=
  completion_fires w /\ falsy (jobId (st w)) = false.

(** The events of a job that only the stream reports on: the hook stays
    connected, and nothing restarts the job (no new ingest, no reset, no
    rejected [aggregate]). *)
Definition stream_driven (e : Event) : Prop :=
  match e with
  | StreamChanged h => stream_connected h = true
  | AggregateSettled _ (Rejected _) => False
  | IngestComplete _ _ => False
  | Reset => False
  | _ => True
  end.

(** Stage [complete] has its bundle. *)
Definition complete_has_bundle (w : Runtime) : Prop :=
  stage (st w) = complete -> is_Some (evidenceBundle (st w)).

(** The number of [api.aggregate] calls made so far. *)
Definition is_aggregate (c : Call) : bool :=
  match c with CallAggregate _ _ => true | _ => false end.

Definition aggregate_calls (w : Runtime) : nat :=
  length (List.filter is_aggregate (calls w)).

(** A job that the stream alone reports on, [n] being the [aggregate] calls
    made before it: no poll and no [validate] is in flight, the stream is
    connected, and either the stage is [validating] and no [aggregate] was
    added, or the stage has moved on and exactly one was. *)
Definition stream_job (n : nat) (w : Runtime) : Prop :=
  polls w = [] /\ validates w = []
  /\ stream_connected (stream w) = true
  /\ ((stage (st w) = validating /\ aggregates w = [] /\ aggregate_calls w = n)
      \/ (stage (st w) <> validating /\ aggregate_calls w = S n)).

(** The response view that the render of [w] computes. *)
Definition view (w : Runtime) : option (gmap string (list MinerResponse)) :=
  minerResponses (st w) (stream w).


End App.

(** ** The component [LiveDashboard] (components/LiveDashboard.tsx)

    The older dashboard polls on its own. Only the poll loop is modelled: the
    cells [status], [error] and [polling], its effect and its interval. *)

Module LiveDashboard.

Record State := {
  status : option StatusResponse.t;
  error : option string;
  polling : bool
}.

Record Runtime := {
  st : State;
  (** the [jobId] prop *)
  jobId : string;
  (** [[jobId, polling]] at the last run of the effect *)
  deps : string * bool;
  (** whether [setInterval(pollStatus, 2000)] is live *)
  interval : bool;
  (** [api.getStatus] requests in flight *)
  polls : nat;
  (** [api.getStatus] calls made *)
  calls : nat
}.

Definition with_st (f : State -> State) (w : Runtime) : Runtime :=
  {| st := f (st w); jobId := jobId w; deps := deps w; interval := interval w;
     polls := polls w; calls := calls w |}.

(** [pollStatus] up to its [await]. *)
Definition issue_getStatus (w : Runtime) : Runtime :=
  {| st := st w; jobId := jobId w; deps := deps w; interval := interval w;
     polls := S (polls w); calls := S (calls w) |}.

(** [pollStatus] after the [await] (lines 170-178). *)
Definition poll_settled (r : outcome StatusResponse.t) (s : State) : State :=
  match r with
  | Resolved result =>
      {| status := Some result; error := error s;
         polling :=
           if bool_decide (StatusResponse.status result = completed)
              || bool_decide (StatusResponse.status result = failed)
           then false else polling s |}
  | Rejected message =>
      {| status := status s;
         error := Some (or_default message "Failed to fetch status");
         polling := false |}
  end.

(** The effect (lines 164-185): clean-up of the last run, then
    [if (!polling) return; pollStatus(); setInterval(pollStatus, 2000)]. *)
Definition poll_effect (w : Runtime) : Runtime :=
  let d := (jobId w, polling (st w)) in
  if decide (d = deps w) then w
  else
    let w1 := {| st := st w; jobId := jobId w; deps := d; interval := false;
                 polls := polls w; calls := calls w |} in
    if polling (st w)
    then issue_getStatus
           {| st := st w; jobId := jobId w; deps := d; interval := true;
              polls := polls w; calls := calls w |}
    else w1.

Inductive Event :=
| Tick
| PollSettled (r : outcome StatusResponse.t).

Definition handle (w : Runtime) (e : Event) : Runtime :=
  match e with
  | Tick => if interval w then issue_getStatus w else w
  | PollSettled r =>
      match polls w with
      | S n =>
          {| st := poll_settled r (st w); jobId := jobId w; deps := deps w;
             interval := interval w; polls := n; calls := calls w |}
      | O => w
      end
  end.

Definition step (w : Runtime) (e : Event) : Runtime :=
  poll_effect (handle w e).

(** After the first render and the first run of the effect: [polling] starts
    [true], so the first request is out and the interval is live. *)
Definition mount (job : string) : Runtime :=
  {| st := {| status := None; error := None; polling := true |};
     jobId := job; deps := (job, true); interval := true;
     polls := 1; calls := 1 |}.

(** The parent (frontend/src/App.tsx) renders
    [<LiveDashboard jobId={activeJobId} />] under [activeJobId &&], without a
    key: when [handleValidationStart] stores another job id, the mounted
    dashboard keeps its state, renders with the new prop, and its effect
    runs on the new dependencies. *)
Definition rerender (job : string) (w : Runtime) : Runtime :=
  poll_effect
    {| st := st w; jobId := job; deps := deps w; interval := interval w;
       polls := polls w; calls := calls w |}.

(** What a mounted dashboard can receive. *)
Inductive Input :=
| Dispatch (e : Event)
| NewJob (job : string).

Definition feed (w : Runtime) (i : Input) : Runtime :=
  match i with
  | Dispatch e => step w e
  | NewJob job => rerender job w
  end.

(** Between two events the effect has run on the current render, and the
    interval is live exactly while [polling] is set. *)
Definition settled (w : Runtime) : Prop :=
  deps w = (jobId w, polling (st w)) /\ interval w = polling (st w).

End LiveDashboard.

(** ** The component [EvidencePanel] (components/EvidencePanel.tsx) *)

Module EvidencePanel.

(** The props, under the names of line 10. [App] passes [jobId!], which is
    [null] at run time when no job is named. *)
Record Props := {
  jobId : option string;
  bundle : EvidenceBundle.t;
  initialCid : option string
}.

Record State := {
  showJson : bool;
  attestation : option AttestResponse.t;
  attesting : bool;
  error : option string;
  ipfsCid : option string
}.

Record Runtime := {
  (** the props of the latest render *)
  props : Props;
  st : State;
  (** the [job_id] of the [api.attest] requests in flight *)
  in_flight : list (option string);
  (** [api.attest] calls made *)
  calls : nat;
  (** [api.attest] calls that resolved *)
  attested : nat
}.

(** [disabled={attesting || !!attestation}] on the attest button. *)
Definition attest_disabled (s : State) : bool :=
  attesting s || bool_decide (is_Some (attestation s)).

(** [handleAttest] up to its [await] (lines 17-22): the request names the
    [jobId] prop of the render whose button was clicked. *)
Definition handleAttest (w : Runtime) : Runtime :=
  {| props := props w;
     st := {| showJson := showJson (st w); attestation := attestation (st w);
              attesting := true; error := None; ipfsCid := ipfsCid (st w) |};
     in_flight := in_flight w ++ [jobId (props w)];
     calls := S (calls w); attested := attested w |}.

(** [handleAttest] after the [await], with its [finally] (lines 23-29). *)
Definition attest_settled (r : outcome AttestResponse.t) (s : State) : State :=
  match r with
  | Resolved response =>
      {| showJson := showJson s; attestation := Some response; attesting := false;
         error := error s; ipfsCid := AttestResponse.ipfs_cid response |}
  | Rejected detail =>
      {| showJson := showJson s; attestation := attestation s; attesting := false;
         error := Some (or_default detail "Attestation failed");
         ipfsCid := ipfsCid s |}
  end.

Inductive Event :=
| ToggleJson
| ClickAttest
| AttestSettled (r : outcome AttestResponse.t).

(** A disabled button dispatches no click. *)
Definition step (w : Runtime) (e : Event) : Runtime :=
  match e with
  | ToggleJson =>
      {| props := props w;
         st := {| showJson := negb (showJson (st w)); attestation := attestation (st w);
                  attesting := attesting (st w); error := error (st w);
                  ipfsCid := ipfsCid (st w) |};
         in_flight := in_flight w; calls := calls w; attested := attested w |}
  | ClickAttest => if attest_disabled (st w) then w else handleAttest w
  | AttestSettled r =>
      match in_flight w with
      | _ :: rest =>
          {| props := props w; st := attest_settled r (st w); in_flight := rest;
             calls := calls w;
             attested := match r with Resolved _ => S (attested w) | Rejected _ => attested w end |}
      | [] => w
      end
  end.

(** The mounted panel rendered again by its parent, with the props of that
    render: the state cells stay as they are, [useState(initialCid)] reads its
    argument at the first render only. *)
Definition rerender (p : Props) (w : Runtime) : Runtime :=
  {| props := p; st := st w; in_flight := in_flight w; calls := calls w;
     attested := attested w |}.

(** What the mounted panel receives: an event of its own, or a render by its
    parent. *)
Inductive Input :=
| Dispatch (e : Event)
| Rerender (p : Props).

Definition feed (w : Runtime) (i : Input) : Runtime :=
  match i with
  | Dispatch e => step w e
  | Rerender p => rerender p w
  end.

Definition run (w : Runtime) (inputs : list Input) : Runtime := foldl feed w inputs.

(** The panel as mounted by a render with props [p]. *)
Definition mount (p : Props) : Runtime :=
  {| props := p;
     st := {| showJson := false; attestation := None; attesting := false;
              error := None; ipfsCid := initialCid p |};
     in_flight := []; calls := 0; attested := 0 |}.

(** [n] attempts in a row that the backend rejects. *)
Fixpoint rejected_attempts (n : nat) : list Input :=
  match n with
  | O => []
  | S n' => Dispatch ClickAttest :: Dispatch (AttestSettled (Rejected None))
            :: rejected_attempts n'
  end.

(** What holds of the panel at any time: a request is out exactly while
    [attesting], a response has resolved exactly when [attestation] is set,
    and the two exclude each other. *)
Definition consistent (w : Runtime) : Prop :=
  length (in_flight w) = (if attesting (st w) then 1 else 0)%nat
  /\ attested w = match attestation (st w) with Some _ => 1 | None => 0 end%nat
  /\ (attesting (st w) = true -> attestation (st w) = None).

End EvidencePanel.

(** ** [App] with the panel it renders (part_001, lines 235-251)

    [App] renders [EvidencePanel] only in stage [complete] with a bundle:
    the panel is unmounted, and its state cells with it, when the stage leaves
    [complete], and another one is mounted when the stage comes back. A
    request that an unmounted panel has in flight still gets its answer from
    the backend; the continuation then sets cells of a component that is
    gone. *)

Module Page.

Record Runtime := {
  app : App.Runtime;
  (** the mounted panel, if [App] renders one *)
  panel : option EvidencePanel.Runtime;
  (** the [job_id] of the [attest] requests in flight of unmounted panels *)
  orphans : list (option string);
  (** the [job_id] of every [attest] call that resolved, oldest first *)
  attestations : list (option string)
}.

(** The props of the panel in the render of state [s], if it is rendered
    (lines 235 and 244-248). *)
Definition panel_props (s : App.State) : option EvidencePanel.Props :=
  match App.stage s, App.evidenceBundle s with
  | App.complete, Some b =>
      Some {| EvidencePanel.jobId := App.jobId s; EvidencePanel.bundle := b;
              EvidencePanel.initialCid := App.ipfsCid s |}
  | _, _ => None
  end.

(** The panel after [App] has rendered as [a]: kept and rendered again with
    the new props, mounted, or unmounted. *)
Definition reconcile (a : App.Runtime) (w : Runtime) : Runtime :=
  match panel_props (App.st a) with
  | Some p =>
      {| app := a;
         panel := Some match panel w with
                       | Some pw => EvidencePanel.rerender p pw
                       | None => EvidencePanel.mount p
                       end;
         orphans := orphans w; attestations := attestations w |}
  | None =>
      {| app := a; panel := None;
         orphans := orphans w ++ match panel w with
                                 | Some pw => EvidencePanel.in_flight pw
                                 | None => []
                                 end;
         attestations := attestations w |}
  end.

(** The attestations once the request for job [j] has its answer [r]. *)
Definition attest_answered (r : outcome AttestResponse.t) (j : option string)
    (l : list (option string)) : list (option string) :=
  match r with
  | Resolved _ => l ++ [j]
  | Rejected _ => l
  end.

Inductive Event :=
| OfApp (e : App.Event)
| OfPanel (e : EvidencePanel.Event)
(** the answer to the [k]-th request of the unmounted panels *)
| OrphanSettled (k : nat) (r : outcome AttestResponse.t).

(** [None]: the render of [App] threw. An event of the panel reaches it only
    while it is mounted. *)
Definition step (w : Runtime) (e : Event) : option Runtime :=
  match e with
  | OfApp e' =>
      match App.step (app w) e' with
      | Some a => Some (reconcile a w)
      | None => None
      end
  | OfPanel e' =>
      match panel w with
      | Some pw =>
          Some {| app := app w; panel := Some (EvidencePanel.step pw e');
                  orphans := orphans w;
                  attestations :=
                    match e', EvidencePanel.in_flight pw with
                    | EvidencePanel.AttestSettled r, j :: _ =>
                        attest_answered r j (attestations w)
                    | _, _ => attestations w
                    end |}
      | None => Some w
      end
  | OrphanSettled k r =>
      match orphans w !! k with
      | Some j =>
          Some {| app := app w; panel := panel w; orphans := delete k (orphans w);
                  attestations := attest_answered r j (attestations w) |}
      | None => Some w
      end
  end.

Fixpoint run (w : Runtime) (es : list Event) : option Runtime :=
  match es with
  | [] => Some w
  | e :: es' =>
      match step w e with
      | Some w' => run w' es'
      | None => None
      end
  end.

(** The page at the mount of [App]: stage [input], no panel. *)
Definition mount (h : App.Stream) : Runtime :=
  {| app := App.mount h; panel := None; orphans := []; attestations := [] |}.

(** The successful attestations of job [j]. *)
Definition attestations_of (j : string) (w : Runtime) : nat :=
  length (filter (fun x => x = Some j) (attestations w)).

(** What holds of the page at any time: the panel is mounted exactly when
    [App] renders it, with the props of that render, and is consistent. *)
Definition coherent (w : Runtime) : Prop :=
  option_map EvidencePanel.props (panel w) = panel_props (App.st (app w))
  /\ forall pw, panel w = Some pw -> EvidencePanel.consistent pw.

End Page.

(** ** The table of claims (components/ClaimsTable.tsx) *)

Module ClaimsTable.

(** [claimStatuses.get(claim.id) || 'pending'], the status of a row. *)
Definition row_status (statuses : gmap string ClaimStatus.t) (cid : string)
  : ClaimStatus.t :=
  default ClaimStatus.pending (statuses !! cid).

(** [(minerResponses.get(claim.id) || []).length], the [minerCount] of a
    row. *)
Definition minerCount (view : gmap string (list MinerResponse)) (cid : string) : nat :=
  length (default [] (view !! cid)).

End ClaimsTable.

(** ** Shortened identifiers (EvidencePanel.tsx, api.ts)

    A string stands for its sequence of UTF-16 code units, one per
    character, which is what [length] and [slice] count. *)

Module Display.

(** [s.slice(0, n)]. *)
Definition slice_to (n : nat) (s : string) : string := String.substring 0 n s.

(** [s.slice(-n)], for [n] positive: from [max(length - n, 0)] to the end. *)
Definition slice_last (n : nat) (s : string) : string :=
  String.substring (String.length s - n) n s.

(** The content address as the panel shows it:
    [ipfsCid.length > 40 ? `${ipfsCid.slice(0, 20)}...${ipfsCid.slice(-12)}` : ipfsCid]. *)
Definition shown_cid (cid : string) : string :=
  if Nat.ltb 40 (String.length cid)
  then String.append (slice_to 20 cid) (String.append "..." (slice_last 12 cid))
  else cid.

(** The signature as the panel shows it:
    [{attestation.signature.slice(0, 16)}...{attestation.signature.slice(-8)}]. *)
Definition shown_signature (signature : string) : string :=
  String.append (slice_to 16 signature) (String.append "..." (slice_last 8 signature)).

(** [s.replace(pattern, replacement)] with a string pattern and a
    replacement without [$]: the first occurrence is replaced, if any. *)
Fixpoint replace_first (pattern replacement s : string) : string :=
  if String.prefix pattern s
  then String.append replacement
         (String.substring (String.length pattern)
            (String.length s - String.length pattern) s)
  else match s with
       | EmptyString => EmptyString
       | String c s' => String c (replace_first pattern replacement s')
       end.

(** [WS_BASE_URL = API_BASE_URL.replace('http', 'ws')] (api.ts). *)
Definition WS_BASE_URL (API_BASE_URL : string) : string :=
  replace_first "http" "ws" API_BASE_URL.

End Display.

(** ** The form [ProposalInput] (components/ProposalInput.tsx)

    The text of the form is kept as its UTF-16 code units, since [trim] is
    defined on them. *)

Module ProposalInput.

(** WhiteSpace and LineTerminator of ECMAScript, which [trim] strips. *)
Definition white_space : list N :=
  [ 9; 10; 11; 12; 13; 32; 160; 5760; 8192; 8193; 8194; 8195; 8196; 8197;
    8198; 8199; 8200; 8201; 8202; 8232; 8233; 8239; 8287; 12288; 65279 ]%N.

Definition is_white_space (c : N) : bool := bool_decide (c ∈ white_space).

Fixpoint trimStart (s : list N) : list N :=
  match s with
  | c :: s' => if is_white_space c then trimStart s' else s
  | [] => []
  end.

Definition trim (s : list N) : list N :=
  reverse (trimStart (reverse (trimStart s))).

(** The code units of ['http']. *)
Definition http : list N := [104; 116; 116; 112]%N.

(** [s.startsWith(p)]. *)
Definition startsWith (p s : list N) : bool := bool_decide (take (length p) s = p).

(** The body of [api.ingest]: [{ url }] or [{ text }]. *)
Record IngestRequest := { url : option (list N); text : option (list N) }.

Record State := {
  input : list N;
  loading : bool;
  error : option string
}.

Record Runtime := {
  st : State;
  (** [api.ingest] requests in flight *)
  in_flight : nat;
  (** the bodies of the [api.ingest] calls made *)
  requests : list IngestRequest;
  (** the [autoValidate] argument of each [onIngestComplete] call made *)
  completions : list bool
}.

(** The request that [handleSubmit] builds (lines 15-23); [None] when it
    returns at [if (!input.trim()) return]. *)
Definition request_of (s : list N) : option IngestRequest :=
  match trim s with
  | [] => None
  | t => Some (if startsWith http t
               then {| url := Some t; text := None |}
               else {| url := None; text := Some t |})
  end.

(** [disabled={loading || !input.trim()}] on the submit button, the only
    control that submits the form. *)
Definition submit_disabled (s : State) : bool :=
  loading s || bool_decide (trim (input s) = []).

(** [handleSubmit] up to its [await]. *)
Definition handleSubmit (w : Runtime) : Runtime :=
  match request_of (input (st w)) with
  | None => w
  | Some q =>
      {| st := {| input := input (st w); loading := true; error := None |};
         in_flight := S (in_flight w); requests := requests w ++ [q];
         completions := completions w |}
  end.

Inductive Event :=
| Change (value : list N)
| Submit
| IngestSettled (r : outcome IngestResponse.t).

(** The textarea is [disabled={loading}]: it dispatches no change then. The
    continuation of [handleSubmit] calls [onIngestComplete(result, true)] or
    stores the error, and resets [loading] in its [finally]. *)
Definition step (w : Runtime) (e : Event) : Runtime :=
  match e with
  | Change value =>
      if loading (st w) then w
      else {| st := {| input := value; loading := loading (st w); error := error (st w) |};
              in_flight := in_flight w; requests := requests w;
              completions := completions w |}
  | Submit => if submit_disabled (st w) then w else handleSubmit w
  | IngestSettled r =>
      match in_flight w with
      | S n =>
          {| st := {| input := input (st w); loading := false;
                      error := match r with
                               | Resolved _ => error (st w)
                               | Rejected detail =>
                                   Some (or_default detail "Failed to ingest proposal")
                               end |};
             in_flight := n; requests := requests w;
             completions := match r with
                            | Resolved _ => completions w ++ [true]
                            | Rejected _ => completions w
                            end |}
      | O => w
      end
  end.

Definition run (w : Runtime) (es : list Event) : Runtime := foldl step w es.

Definition mount : Runtime :=
  {| st := {| input := []; loading := false; error := None |};
     in_flight := 0; requests := []; completions := [] |}.

(** A request as the backend wants it: exactly one of [url] and [text],
    not empty, with no white space at either end, and [url] exactly for a
    value that starts with ['http']. *)
Definition well_formed (q : IngestRequest) : Prop :=
  exists t,
    t <> [] /\ trim t = t
    /\ ((startsWith http t = true /\ url q = Some t /\ text q = None)
        \/ (startsWith http t = false /\ url q = None /\ text q = Some t)).

(** What holds of the form at any time. *)
Definition form_invariant (w : Runtime) : Prop :=
  in_flight w = (if loading (st w) then 1 else 0)%nat
  /\ Forall well_formed (requests w)
  /\ Forall (fun auto => auto = true) (completions w)
  /\ (length (completions w) + in_flight w <= length (requests w))%nat.

End ProposalInput.

(** ** The derivation rule of the specification, in its words

    "completed if the job's aggregated evidence bundle already contains this
    claim OR job stage is completed; validating if at least one response
    exists for the claim; else pending", where the job's stage is one of
    queued, running, completed and failed. *)
Definition derived_status_spec (job_stage : JobStatus)
    (bundle : option EvidenceBundle.t) (view : gmap string (list MinerResponse))
    (cid : string) : ClaimStatus.t :=
  if App.bundle_has_claim bundle cid || bool_decide (job_stage = completed)
  then ClaimStatus.completed
  else match default [] (view !! cid) with
       | _ :: _ => ClaimStatus.validating
       | [] => ClaimStatus.pending
       end.

(** The merge key of a response. *)
Definition merge_key (r : MinerResponse) : string * string :=
  (claim_id r, miner_id r).

(** The responses of a snapshot that are for one claim, in arrival order. *)
Definition responses_for (cid : string) (rs : list MinerResponse) : list MinerResponse :=
  filter (fun r => claim_id r = cid) rs.

(** A list has [r], and no other entry of [r]'s miner. *)
Definition listed_once (r : MinerResponse) (l : list MinerResponse) : Prop :=
  filter (fun x => miner_id x = miner_id r) l = [r].

(** ** Sample data: the job of the specification's scenarios *)

Module Sample.

Definition no_progress : JobProgress :=
  {| claims_total := 0; claims_validated := 0; miners_contacted := 0; miners_responded := 0 |}.

Definition half_way : JobProgress :=
  {| claims_total := 2; claims_validated := 0; miners_contacted := 5; miners_responded := 1 |}.

(** What the hook returns before the socket opens, once it is open, and
    after a [status] message that reports the job completed. *)
Definition stream_off : App.Stream :=
  {| App.stream_connected := false; App.stream_minerResponses := ∅;
     App.stream_progress := no_progress; App.stream_status := queued |}.

Definition stream_on : App.Stream :=
  {| App.stream_connected := true; App.stream_minerResponses := ∅;
     App.stream_progress := no_progress; App.stream_status := running |}.

Definition stream_done : App.Stream :=
  {| App.stream_connected := true; App.stream_minerResponses := ∅;
     App.stream_progress := half_way; App.stream_status := completed |}.

(** The same, for a hook that holds miner-4's response for claim-2. *)
Definition stream_done_with (rs : list MinerResponse) : App.Stream :=
  {| App.stream_connected := true;
     App.stream_minerResponses := {[ "claim-2" := rs ]};
     App.stream_progress := half_way; App.stream_status := completed |}.

Definition claim1 : Claim.t :=
  Claim.mk "claim-1" "The treasury holds 5M tokens." 0 (0, 29) numeric
    (ClaimCanonical.mk [] [] []).

Definition claim2 : Claim.t :=
  Claim.mk "claim-2" "The grant was approved in March." 1 (30, 62) temporal
    (ClaimCanonical.mk [] [] []).

Definition ingested : IngestResponse.t :=
  IngestResponse.mk "sha256:ab12" "The treasury holds 5M tokens." [claim1; claim2].

Definition validated : ValidateResponse.t :=
  ValidateResponse.mk "job-1" "sha256:ab12" queued "2025-01-01T00:00:00Z" None.

Definition some_scores : MinerScores :=
  {| accuracy := QArith_base.Qmake 9 10; omission_risk := QArith_base.Qmake 1 10;
     evidence_quality := QArith_base.Qmake 4 5;
     governance_relevance := QArith_base.Qmake 1 2;
     composite := QArith_base.Qmake 3 4 |}.

(** The response of miner-4 for claim-2. *)
Definition response24 : MinerResponse :=
  {| miner_id := "miner-4"; claim_id := "claim-2"; verdict := verified;
     rationale := "matches the forum post"; evidence_links := [];
     embedding := None; scores := some_scores |}.

(** The response of miner-1 for claim-2. *)
Definition response21 : MinerResponse :=
  {| miner_id := "miner-1"; claim_id := "claim-2"; verdict := verified;
     rationale := "the vote is on chain"; evidence_links := [];
     embedding := None; scores := some_scores |}.

(** The hook, connected or not, holding [rs] for claim-2 while the job
    runs. *)
Definition stream_with (connected : bool) (rs : list MinerResponse) : App.Stream :=
  {| App.stream_connected := connected;
     App.stream_minerResponses := {[ "claim-2" := rs ]};
     App.stream_progress := half_way; App.stream_status := running |}.

Definition snapshot (status : JobStatus) (rs : list MinerResponse) : StatusResponse.t :=
  StatusResponse.mk "job-1" status half_way rs (bool_decide (status = completed)).

(** A bundle that aggregates claim-1 only. *)
Definition bundle1 : EvidenceBundle.t :=
  EvidenceBundle.mk "sha256:ab12" "job-1"
    [ ClaimAggregation.mk "claim-1" "The treasury holds 5M tokens."
        (QArith_base.Qmake 1 1) "verified" (QArith_base.Qmake 0 1)
        (QArith_base.Qmake 3 4) (QArith_base.Qmake 1 2, QArith_base.Qmake 1 1)
        [] supported [] ]
    (QArith_base.Qmake 1 1) (QArith_base.Qmake 3 4)
    (QArith_base.Qmake 1 2, QArith_base.Qmake 1 1) [] "2025-01-01T00:01:00Z".

Definition aggregated : AggregateResponse.t :=
  AggregateResponse.mk "job-1" bundle1 (Some "bafy-evidence").

Definition attestation1 : AttestResponse.t :=
  AttestResponse.mk "job-1" "sha256:ab12" (Some "bafy-evidence") "0x5167" "0x51e7"
    "0xa11ce" ("hash the bundle", "recover the signer", "compare", "done").

(** Ingest and validate: the component is in stage [validating], the stream
    is not connected yet, the first poll is out. *)
Definition start_job : list App.Event :=
  [ App.IngestComplete ingested true; App.ValidateSettled 0 (Resolved validated) ].

(** The component after [es], or as mounted if a render threw on the way. *)
Definition after (es : list App.Event) : App.Runtime :=
  default (App.mount stream_off) (App.run (App.mount stream_off) es).

(** Stage [validating], stream connected. *)
Definition connected_job : list App.Event :=
  start_job ++ [ App.StreamChanged stream_on ].

(** The stream reports the job completed: stage [aggregating], one
    [aggregate] request out. *)
Definition aggregating_job : list App.Event :=
  connected_job ++ [ App.StreamChanged stream_done ].

(** The same, and then the answer to the first poll, which was sent before
    the socket opened, also reports the job completed. *)
Definition two_signals : list App.Event :=
  aggregating_job ++ [ App.PollSettled 0 (Resolved (snapshot completed [])) ].

(** Two polls out (the first one and one tick); the first answer reports
    the job completed and [aggregate] succeeds with a bundle that has
    claim-1 only. *)
Definition completed_job : list App.Event :=
  start_job ++
  [ App.Tick;
    App.PollSettled 0 (Resolved (snapshot completed [response24]));
    App.AggregateSettled 0 (Resolved aggregated) ].

(** The answer to the first poll, which has miner-4's response, arrives
    while the stream is connected and has delivered nothing. *)
Definition polled_while_connected : list App.Event :=
  connected_job ++ [ App.PollSettled 0 (Resolved (snapshot running [response24])) ].

(** The page after [es], or as mounted if a render threw on the way. *)
Definition page_after (es : list Page.Event) : Page.Runtime :=
  default (Page.mount stream_off) (Page.run (Page.mount stream_off) es).

(** The job completes as in [completed_job], and the user attests it. *)
Definition attested_job : list Page.Event :=
  (Page.OfApp <$> completed_job) ++
  [ Page.OfPanel EvidencePanel.ClickAttest;
    Page.OfPanel (EvidencePanel.AttestSettled (Resolved attestation1)) ].

(** The answer to the second poll, the one the tick sent, then reports the
    job completed once more; [aggregate] is called and resolves again, and
    the user attests again. *)
Definition attested_again : list Page.Event :=
  [ Page.OfApp (App.PollSettled 0 (Resolved (snapshot completed [response24])));
    Page.OfApp (App.AggregateSettled 0 (Resolved aggregated));
    Page.OfPanel EvidencePanel.ClickAttest;
    Page.OfPanel (EvidencePanel.AttestSettled (Resolved attestation1)) ].

(** The props of the panel of job-1, and the same with another content
    address. *)
Definition panel_props1 : EvidencePanel.Props :=
  {| EvidencePanel.jobId := Some "job-1"; EvidencePanel.bundle := bundle1;
     EvidencePanel.initialCid := Some "bafy-evidence" |}.

Definition panel_props2 : EvidencePanel.Props :=
  {| EvidencePanel.jobId := Some "job-1"; EvidencePanel.bundle := bundle1;
     EvidencePanel.initialCid := Some "bafy-second" |}.

End Sample.

(** * Properties *)

(** ** Grouping a poll snapshot by claim *)

Section Grouping.

Implicit Types (acc m : gmap string (list MinerResponse)).
Implicit Types (rs : list MinerResponse) (r : MinerResponse) (cid : string).

Lemma group_step_Some acc r :
  claim_id r ∉ object_prototype_keys ->
  group_step acc r = Some (<[claim_id r := default [] (acc !! claim_id r) ++ [r]]> acc).
Proof.
  intros Hk. unfold group_step. by rewrite bool_decide_eq_false_2.
Qed.

Lemma group_step_inv acc r acc' :
  group_step acc r = Some acc' ->
  (claim_id r ∉ object_prototype_keys)
  /\ acc' = <[claim_id r := default [] (acc !! claim_id r) ++ [r]]> acc.
Proof.
  unfold group_step. case_bool_decide as Hk; [done|].
  intros [= <-]. done.
Qed.

(** The render returns exactly when no claim id of the snapshot is a
    property of [Object.prototype]. *)
Lemma group_from_is_Some acc rs :
  Forall (fun r => claim_id r ∉ object_prototype_keys) rs <-> is_Some (group_from acc rs).
Proof.
  revert acc. induction rs as [|r rs IH]; intros acc; simpl.
  - split; [by eauto | by constructor].
  - split.
    + intros [Hr Hrs]%Forall_cons. rewrite (group_step_Some _ _ Hr).
      by apply IH.
    + destruct (group_step acc r) as [acc'|] eqn:Hs; [|by intros [? [=]]].
      intros Hm. apply group_step_inv in Hs as [Hr _].
      constructor; [done|]. by eapply IH.
Qed.

(** What [get(cid)] finds after the [reduce]: what the accumulator had,
    followed by the snapshot's responses for [cid] in arrival order. *)
Lemma group_from_lookup acc rs m cid :
  group_from acc rs = Some m ->
  m !! cid =
    match responses_for cid rs with
    | [] => acc !! cid
    | l => Some (default [] (acc !! cid) ++ l)
    end.
Proof.
  revert acc. induction rs as [|r rs IH]; intros acc; simpl.
  - by intros [= <-].
  - destruct (group_step acc r) as [acc'|] eqn:Hs; [|done].
    apply group_step_inv in Hs as [_ ->]. intros Hm.
    rewrite (IH _ Hm). unfold responses_for. rewrite filter_cons.
    destruct (decide (claim_id r = cid)) as [<-|Hne].
    + rewrite lookup_insert_eq. simpl.
      destruct (filter _ rs) as [|x l] eqn:Hf; [done|].
      by rewrite <- app_assoc.
    + by rewrite lookup_insert_ne.
Qed.

Lemma group_by_claim_lookup rs m cid :
  group_by_claim rs = Some m ->
  m !! cid = match responses_for cid rs with [] => None | l => Some l end.
Proof.
  intros Hm. rewrite (group_from_lookup _ _ _ cid Hm), lookup_empty.
  by destruct (responses_for cid rs).
Qed.

Lemma responses_for_elem cid rs r :
  r ∈ responses_for cid rs <-> r ∈ rs /\ claim_id r = cid.
Proof. unfold responses_for. rewrite list_elem_of_filter. tauto. Qed.

(** A snapshot with unique merge keys has, per claim, unique miners. *)
Lemma responses_for_NoDup cid rs :
  NoDup (merge_key <$> rs) -> NoDup (miner_id <$> responses_for cid rs).
Proof.
  unfold responses_for. induction rs as [|r rs IH]; simpl; [constructor|].
  rewrite NoDup_cons. intros [Hr Hrs]. rewrite filter_cons.
  destruct (decide (claim_id r = cid)) as [Heq|Hne]; [|by apply IH].
  simpl. apply NoDup_cons. split; [|by apply IH].
  intros (r' & Hm & [Hin Hc]%list_elem_of_filter)%list_elem_of_fmap.
  apply Hr. apply list_elem_of_fmap. exists r'. split; [|done].
  unfold merge_key. congruence.
Qed.

(** In a snapshot with unique merge keys, a response is the only entry of
    its miner among the responses for its claim. *)
Lemma responses_for_listed_once rs r :
  NoDup (merge_key <$> rs) -> r ∈ rs -> listed_once r (responses_for (claim_id r) rs).
Proof.
  unfold listed_once, responses_for.
  induction rs as [|x rs IH]; [by intros _ ?%elem_of_nil|].
  rewrite fmap_cons, NoDup_cons. intros [Hx Hrs] Hin.
  rewrite filter_cons.
  destruct (decide (merge_key x = merge_key r)) as [Hk|Hk].
  - assert (r ∉ rs) as Hnot.
    { intros Hr. apply Hx. rewrite Hk. apply list_elem_of_fmap. by exists r. }
    assert (r = x) as -> by (apply elem_of_cons in Hin as [?|?]; done).
    rewrite decide_True by done. rewrite filter_cons, decide_True by done.
    f_equal.
    destruct (filter _ (filter _ rs)) as [|y l] eqn:Hl; [done|].
    exfalso. assert (y ∈ y :: l) as Hy by left. rewrite <- Hl in Hy.
    apply list_elem_of_filter in Hy as [Hm [Hc Hyin]%list_elem_of_filter].
    apply Hx. apply list_elem_of_fmap. exists y. split; [|done].
    unfold merge_key. congruence.
  - assert (r ∈ rs) as Hr.
    { apply elem_of_cons in Hin as [->|?]; done. }
    destruct (decide (claim_id x = claim_id r)) as [Hc|Hc]; [|by apply IH].
    rewrite filter_cons, decide_False; [by apply IH|].
    intros Hm. apply Hk. unfold merge_key. congruence.
Qed.
End Grouping.

(** ** The response view *)

Section View.

Import App.

Lemma poll_settled_polledResponses (w : Runtime) (j : string) (s : StatusResponse.t) :
  polledResponses (st (poll_settled j (Resolved s) w)) = StatusResponse.partial_results s
  /\ stream (poll_settled j (Resolved s) w) = stream w.
Proof.
  unfold poll_settled, handleValidationComplete.
  by repeat (case_bool_decide || simpl).
Qed.

Lemma view_with_stream (w : Runtime) (h : Stream) :
  view (with_stream h w)
  = if stream_connected h then Some (stream_minerResponses h)
    else group_by_claim (polledResponses (st w)).
Proof. done. Qed.

Lemma view_poll_settled (w : Runtime) (j : string) (s : StatusResponse.t) :
  view (poll_settled j (Resolved s) w)
  = if stream_connected (stream w) then Some (stream_minerResponses (stream w))
    else group_by_claim (StatusResponse.partial_results s).
Proof.
  unfold view, minerResponses.
  destruct (poll_settled_polledResponses w j s) as [-> ->]. done.
Qed.

End View.

(** C2, as the code has it. The poll delivers a snapshot that lists the
    response, the stream a value of the hook that holds it, in either order
    and with the connection as it is. The view after both is the view after
    the one delivery through the channel that the view reads: the hook's map
    while the stream is connected, the grouping of the snapshot while it is
    not; a snapshot delivered a second time changes nothing; and the miner
    has one entry under the claim, when the snapshot lists each
    (claim_id, miner_id) once and the hook holds the miner once. *)
Theorem double_delivery_view
    (w : App.Runtime) (j j' : string) (s : StatusResponse.t) (h : App.Stream)
    (r : MinerResponse) :
  r ∈ StatusResponse.partial_results s ->
  NoDup (merge_key <$> StatusResponse.partial_results s) ->
  Forall (fun x => claim_id x ∉ object_prototype_keys) (StatusResponse.partial_results s) ->
  App.stream_connected h = App.stream_connected (App.stream w) ->
  listed_once r (default [] (App.stream_minerResponses h !! claim_id r)) ->
  let by_poll := App.poll_settled j (Resolved s) in
  let by_stream := App.with_stream h in
  exists view,
    App.view (by_stream (by_poll w)) = Some view
    /\ App.view (by_poll (by_stream w)) = Some view
    /\ App.view (App.poll_settled j' (Resolved s) (by_poll w)) = App.view (by_poll w)
    /\ (App.stream_connected h = true ->
        App.view (by_stream w) = Some view /\ view = App.stream_minerResponses h)
    /\ (App.stream_connected h = false ->
        App.view (by_poll w) = Some view
        /\ forall cid,
            default [] (view !! cid) = responses_for cid (StatusResponse.partial_results s)
            /\ NoDup (miner_id <$> default [] (view !! cid)))
    /\ listed_once r (default [] (view !! claim_id r)).
Proof.
  intros Hin Hkeys Hproto Hconn Hh. cbv zeta.
  rewrite !view_poll_settled, !view_with_stream.
  destruct (poll_settled_polledResponses w j s) as [Hrs Hst]. rewrite Hrs.
  change (App.stream (App.with_stream h w)) with h.
  rewrite Hst, <- Hconn.
  destruct (App.stream_connected h) eqn:Hc.
  - exists (App.stream_minerResponses h).
    split; [done|]. split; [done|]. split; [done|]. split; [done|].
    split; [done|]. exact Hh.
  - destruct (proj1 (group_from_is_Some ∅ _) Hproto) as [view Hview].
    change (group_from ∅ (StatusResponse.partial_results s))
      with (group_by_claim (StatusResponse.partial_results s)) in Hview.
    exists view. split; [done|]. split; [done|]. split; [done|].
    split; [done|].
    assert (forall cid, default [] (view !! cid)
                        = responses_for cid (StatusResponse.partial_results s)) as Hlook.
    { intros cid. rewrite (group_by_claim_lookup _ _ cid Hview).
      by destruct (responses_for cid _). }
    split.
    + intros _. split; [done|]. intros cid. rewrite Hlook.
      split; [done|]. by apply responses_for_NoDup.
    + rewrite Hlook. by apply responses_for_listed_once.
Qed.

(** The theorem at the sample job and a snapshot of two responses for
    claim-2, of which the stream delivers miner-4's: while the stream is
    connected, and while it is not. *)
Lemma double_delivery_view_witness :
  (exists view,
      App.view (App.with_stream (Sample.stream_with true [Sample.response24])
                  (App.poll_settled "job-1"
                     (Resolved (Sample.snapshot running [Sample.response21; Sample.response24]))
                     (Sample.after Sample.connected_job))) = Some view
      /\ view !! "claim-2" = Some [Sample.response24])
  /\ (exists view,
      App.view (App.poll_settled "job-1"
                  (Resolved (Sample.snapshot running [Sample.response21; Sample.response24]))
                  (App.with_stream (Sample.stream_with false [Sample.response24])
                     (Sample.after Sample.start_job))) = Some view
      /\ default [] (view !! "claim-2") = [Sample.response21; Sample.response24]).
Proof.
  split.
  - destruct (double_delivery_view (Sample.after Sample.connected_job) "job-1" "job-1"
                (Sample.snapshot running [Sample.response21; Sample.response24])
                (Sample.stream_with true [Sample.response24]) Sample.response24)
      as (view & Hboth & _ & _ & Hon & _).
    + right. left.
    + vm_compute. repeat (apply NoDup_cons; split; [by compute_done|]). constructor.
    + repeat constructor; compute_done.
    + vm_compute; reflexivity.
    + vm_compute; reflexivity.
    + exists view. split; [exact Hboth|].
      destruct (Hon eq_refl) as [_ ->]. vm_compute; reflexivity.
  - destruct (double_delivery_view (Sample.after Sample.start_job) "job-1" "job-1"
                (Sample.snapshot running [Sample.response21; Sample.response24])
                (Sample.stream_with false [Sample.response24]) Sample.response24)
      as (view & _ & Hboth & _ & _ & Hoff & _).
    + right. left.
    + vm_compute. repeat (apply NoDup_cons; split; [by compute_done|]). constructor.
    + repeat constructor; compute_done.
    + vm_compute; reflexivity.
    + vm_compute; reflexivity.
    + exists view. split; [exact Hboth|].
      destruct (Hoff eq_refl) as [_ Hlook]. destruct (Hlook "claim-2") as [-> _].
      vm_compute; reflexivity.
Defined.

(** C2 as stated fails: the second delivery changes the view when the first
    one came through the channel that the view does not read. The stream is
    connected and has delivered nothing when the answer to the first poll
    brings miner-4's response for claim-2: the view stays empty. The stream
    then delivers the same response, and the view has it. *)
Lemma second_delivery_changes_view :
  exists once twice v1 v2,
    App.run (App.mount Sample.stream_off) Sample.polled_while_connected = Some once
    /\ App.polledResponses (App.st once) = [Sample.response24]
    /\ App.view once = Some v1
    /\ App.step once (App.StreamChanged (Sample.stream_with true [Sample.response24]))
       = Some twice
    /\ App.polledResponses (App.st twice) = [Sample.response24]
    /\ App.view twice = Some v2
    /\ v1 !! "claim-2" = None
    /\ v2 !! "claim-2" = Some [Sample.response24]
    /\ v2 <> v1.
Proof.
  exists (Sample.after Sample.polled_while_connected).
  exists (Sample.after (Sample.polled_while_connected ++
            [App.StreamChanged (Sample.stream_with true [Sample.response24])])).
  exists ∅. exists {[ "claim-2" := [Sample.response24] ]}.
  split; [vm_compute; reflexivity|]. split; [vm_compute; reflexivity|].
  split; [vm_compute; reflexivity|]. split; [vm_compute; reflexivity|].
  split; [vm_compute; reflexivity|]. split; [vm_compute; reflexivity|].
  split; [vm_compute; reflexivity|]. split; [vm_compute; reflexivity|].
  intros Heq. apply (f_equal (fun v => v !! "claim-2")) in Heq.
  vm_compute in Heq. discriminate Heq.
Qed.

(** C3, as the code has it. The view is the stream's map while the stream is
    connected and the grouping of the latest poll snapshot while it is not:
    a response that only polling delivered is in the view exactly when the
    stream is not connected. *)
Theorem view_follows_connected_channel (s : App.State) (h : App.Stream) :
  Forall (fun r => claim_id r ∉ object_prototype_keys) (App.polledResponses s) ->
  exists view,
    App.minerResponses s h = Some view
    /\ (App.stream_connected h = true -> view = App.stream_minerResponses h)
    /\ (App.stream_connected h = false ->
        forall r cid,
          r ∈ default [] (view !! cid) <-> r ∈ App.polledResponses s /\ claim_id r = cid).
Proof.
  intros Hproto. unfold App.minerResponses.
  destruct (App.stream_connected h).
  - exists (App.stream_minerResponses h). by repeat split.
  - apply (group_from_is_Some ∅) in Hproto as [view Hview].
    exists view. split; [done|]. split; [done|]. intros _ r cid.
    rewrite (group_by_claim_lookup _ _ cid Hview), <- responses_for_elem.
    by destruct (responses_for cid _).
Qed.

(** The theorem at a polled snapshot with miner-4's response, stream off. *)
Lemma view_follows_connected_channel_witness :
  exists view,
    App.minerResponses (App.setPolledResponses [Sample.response24] App.initial)
      Sample.stream_off = Some view
    /\ Sample.response24 ∈ default [] (view !! "claim-2").
Proof.
  destruct (view_follows_connected_channel
              (App.setPolledResponses [Sample.response24] App.initial) Sample.stream_off)
    as (view & Hview & _ & Hoff).
  - repeat constructor. compute_done.
  - exists view. split; [exact Hview|].
    apply (Hoff eq_refl). split; [by left | reflexivity].
Defined.

(** C3 as stated fails: the first poll is answered after the socket has
    opened; miner-4's response is in the polled snapshot and in no stream
    message, and the view has nothing for claim-2. *)
Lemma polled_response_hidden_while_connected :
  exists w view,
    App.run (App.mount Sample.stream_off)
      (Sample.start_job ++
       [ App.StreamChanged Sample.stream_on;
         App.PollSettled 0 (Resolved (Sample.snapshot running [Sample.response24])) ])
      = Some w
    /\ App.stream_connected (App.stream w) = true
    /\ Sample.response24 ∈ App.polledResponses (App.st w)
    /\ App.minerResponses (App.st w) (App.stream w) = Some view
    /\ view !! "claim-2" = None.
Proof.
  exists (Sample.after (Sample.start_job ++
            [ App.StreamChanged Sample.stream_on;
              App.PollSettled 0 (Resolved (Sample.snapshot running [Sample.response24])) ])).
  exists ∅.
  split; [vm_compute; reflexivity|]. split; [vm_compute; reflexivity|].
  split.
  { assert (App.polledResponses (App.st (Sample.after (Sample.start_job ++
              [ App.StreamChanged Sample.stream_on;
                App.PollSettled 0 (Resolved (Sample.snapshot running [Sample.response24])) ])))
            = [Sample.response24]) as -> by (vm_compute; reflexivity).
    by left. }
  split; [vm_compute; reflexivity|].
  apply lookup_empty.
Qed.

(** ** The derived claim status *)

Section ClaimStatuses.

Import App.

Lemma bundle_has_claim_true (b : option EvidenceBundle.t) (cid : string) :
  bundle_has_claim b cid = true <->
  exists e a, b = Some e /\ a ∈ EvidenceBundle.claims e /\ ClaimAggregation.id a = cid.
Proof.
  unfold bundle_has_claim. destruct b as [e|].
  - rewrite existsb_exists. split.
    + intros (a & Hin%list_elem_of_In & Ha%bool_decide_eq_true). by exists e, a.
    + intros (e' & a & [= <-] & Hin & Ha). exists a.
      split; [by apply list_elem_of_In | by apply bool_decide_eq_true].
  - split; [done|]. by intros (? & ? & [=] & _).
Qed.

(** The [forEach] stores one entry per claim id, and a later claim with
    the same id stores the same value again. *)
Lemma statuses_fold (s : State) (view : gmap string (list MinerResponse))
    (cs : list Claim.t) (acc : gmap string ClaimStatus.t) (cid : string) :
  foldl (fun statuses claim =>
           <[Claim.id claim := claim_status s view (Claim.id claim)]> statuses) acc cs !! cid
  = if decide (cid ∈ Claim.id <$> cs) then Some (claim_status s view cid) else acc !! cid.
Proof.
  revert acc. induction cs as [|c cs IH]; intros acc; cbn [foldl].
  - rewrite fmap_nil. by rewrite decide_False by apply not_elem_of_nil.
  - rewrite IH, fmap_cons. destruct (decide (cid ∈ Claim.id <$> cs)) as [Hin|Hnin].
    + rewrite decide_True; [done | by right].
    + destruct (decide (Claim.id c = cid)) as [<-|Hne].
      * rewrite decide_True by left. by rewrite lookup_insert_eq.
      * rewrite decide_False; [by rewrite lookup_insert_ne|].
        intros [?|?]%elem_of_cons; congruence.
Qed.

Lemma getClaimStatuses_lookup (s : State) (view : gmap string (list MinerResponse))
    (cid : string) :
  getClaimStatuses s view !! cid =
    match proposal s with
    | Some p =>
        if decide (cid ∈ Claim.id <$> IngestResponse.claims p)
        then Some (claim_status s view cid) else None
    | None => None
    end.
Proof.
  unfold getClaimStatuses. destruct (proposal s) as [p|]; [|done].
  by rewrite statuses_fold, lookup_empty.
Qed.

End ClaimStatuses.

(** C4, as the code has it. For every ingested claim the derived status is:
    completed if the stored evidence bundle contains the claim or the stage
    of the component is [complete], that is, once [aggregate] has succeeded;
    otherwise validating if the view has a response for the claim; otherwise
    pending. *)
Theorem claim_status_derivation
    (s : App.State) (view : gmap string (list MinerResponse))
    (p : IngestResponse.t) (c : Claim.t) :
  App.proposal s = Some p ->
  c ∈ IngestResponse.claims p ->
  let in_bundle :=
    exists e a, App.evidenceBundle s = Some e /\ a ∈ EvidenceBundle.claims e
                /\ ClaimAggregation.id a = Claim.id c in
  let has_response := exists r, r ∈ default [] (view !! Claim.id c) in
  (in_bundle \/ App.stage s = App.complete ->
     App.getClaimStatuses s view !! Claim.id c = Some ClaimStatus.completed)
  /\ (~ (in_bundle \/ App.stage s = App.complete) -> has_response ->
     App.getClaimStatuses s view !! Claim.id c = Some ClaimStatus.validating)
  /\ (~ (in_bundle \/ App.stage s = App.complete) -> ~ has_response ->
     App.getClaimStatuses s view !! Claim.id c = Some ClaimStatus.pending).
Proof.
  intros Hp Hc in_bundle has_response.
  rewrite getClaimStatuses_lookup, Hp.
  rewrite decide_True by (apply list_elem_of_fmap; eauto).
  unfold App.claim_status.
  assert (bool_decide (App.stage s = App.complete)
          || App.bundle_has_claim (App.evidenceBundle s) (Claim.id c) = true
          <-> in_bundle \/ App.stage s = App.complete) as Hdone.
  { rewrite orb_true_iff, bool_decide_eq_true, bundle_has_claim_true. tauto. }
  assert (bool_decide (0 < Z.of_nat (length (default [] (view !! Claim.id c)))) = true
          <-> has_response) as Hsome.
  { rewrite bool_decide_eq_true. unfold has_response.
    destruct (default [] (view !! Claim.id c)) as [|r rs]; simpl.
    - split; [lia|]. by intros [r ?%elem_of_nil].
    - split; [|lia]. intros _. exists r. by left. }
  destruct (bool_decide _ || _).
  - split; [done|]. split; intros Hn; exfalso; apply Hn, Hdone; done.
  - assert (~ (in_bundle \/ App.stage s = App.complete)) as Hnot.
    { intros H%Hdone. discriminate H. }
    split; [done|]. destruct (bool_decide (0 < _)).
    + split; [done|]. intros _ Hn. exfalso. by apply Hn, Hsome.
    + split; [|done]. intros _ H%Hsome. discriminate H.
Qed.

(** The theorem at claim-2 of the sample proposal, before any response. *)
Lemma claim_status_derivation_witness :
  App.getClaimStatuses (App.setProposal (Some Sample.ingested) App.initial) ∅
    !! "claim-2" = Some ClaimStatus.pending.
Proof.
  refine (proj2 (proj2 (claim_status_derivation
            (App.setProposal (Some Sample.ingested) App.initial) ∅
            Sample.ingested Sample.claim2 eq_refl _)) _ _).
  - right. by left.
  - intros [(e & a & He & _)|Hst]; discriminate.
  - intros [r Hr]. simpl in Hr. by apply elem_of_nil in Hr.
Defined.

(** C4 as stated fails: the stream has reported the job completed, the
    component is aggregating, and claim-2, which has a response and no
    bundle yet, is derived validating where the rule on the job's stage
    gives completed. *)
Lemma job_completed_claim_still_validating :
  exists w view,
    App.run (App.mount Sample.stream_off)
      (Sample.start_job ++
       [ App.StreamChanged Sample.stream_on;
         App.StreamChanged (Sample.stream_done_with [Sample.response24]) ])
      = Some w
    /\ App.minerResponses (App.st w) (App.stream w) = Some view
    /\ App.stream_status (App.stream w) = completed
    /\ App.stage (App.st w) = App.aggregating
    /\ App.getClaimStatuses (App.st w) view !! "claim-2" = Some ClaimStatus.validating
    /\ derived_status_spec (App.stream_status (App.stream w))
         (App.evidenceBundle (App.st w)) view "claim-2" = ClaimStatus.completed.
Proof.
  exists (Sample.after (Sample.start_job ++
            [ App.StreamChanged Sample.stream_on;
              App.StreamChanged (Sample.stream_done_with [Sample.response24]) ])).
  exists {[ "claim-2" := [Sample.response24] ]}.
  split_and!; vm_compute; reflexivity.
Qed.

(** ** The effects of [App] between two events *)

Section Effects.

Import App.

Lemma poll_effect_frame (w : Runtime) :
  st (poll_effect w) = st w /\ stream (poll_effect w) = stream w
  /\ completion_dep (poll_effect w) = completion_dep w
  /\ aggregates (poll_effect w) = aggregates w.
Proof.
  unfold poll_effect. case_decide; [done|].
  destruct (jobId (st w)); [|done]. by destruct (_ || _).
Qed.

(** After the poll effect, React remembers the dependencies of this
    render, and the interval is the one they call for. *)
Lemma poll_effect_timer (w : Runtime) :
  interval w = timer_of (poll_deps w) ->
  poll_deps (poll_effect w) = deps_of w
  /\ interval (poll_effect w) = timer_of (deps_of w).
Proof.
  intros Hi. unfold poll_effect. fold (deps_of w).
  case_decide as Hd; [by rewrite Hi, Hd|].
  unfold deps_of, timer_of, falsy.
  destruct (jobId (st w)) as [j|], (stage (st w)), (stream_connected (stream w));
    simpl; try done; by destruct (bool_decide (j = "")).
Qed.

Lemma completion_effect_frame (w : Runtime) :
  completion_dep (completion_effect w) = stream_status (stream w)
  /\ stream (completion_effect w) = stream w
  /\ poll_deps (completion_effect w) = poll_deps w
  /\ interval (completion_effect w) = interval w
  /\ jobId (st (completion_effect w)) = jobId (st w).
Proof.
  unfold completion_effect, handleValidationComplete.
  case_decide as Hd; [done|].
  destruct (_ && _); [|done].
  destruct (jobId (st w)) as [j|] eqn:Hj; [|done]. simpl.
  by case_bool_decide.
Qed.

Lemma completion_effect_id (w : Runtime) :
  completion_dep w = stream_status (stream w) -> completion_effect w = w.
Proof. intros Hd. unfold completion_effect. by rewrite decide_True. Qed.

Lemma poll_effect_id (w : Runtime) :
  poll_deps w = deps_of w -> poll_effect w = w.
Proof. intros Hd. unfold poll_effect. fold (deps_of w). by rewrite decide_True. Qed.

(** The callbacks touch neither the interval nor what React remembers of
    the effects: only effects do. *)
Lemma handle_frame (w : Runtime) (e : Event) :
  poll_deps (handle w e) = poll_deps w
  /\ completion_dep (handle w e) = completion_dep w
  /\ interval (handle w e) = interval w.
Proof.
  destruct e as [result [] |k [v|d]| |k [s|d]|k [a|d]|h|]; simpl;
    unfold poll_settled, handleValidationComplete;
    repeat (case_match || case_bool_decide); done.
Qed.

Lemma commit_settled (w : Runtime) :
  interval w = timer_of (poll_deps w) -> settled (commit w).
Proof.
  intros Hi. unfold commit, effects_pass.
  destruct (poll_effect_timer w Hi) as [_ Hi1].
  destruct (poll_effect_timer w Hi) as [Hd1 _]. rewrite <- Hd1 in Hi1.
  set (w1 := poll_effect w) in *.
  destruct (completion_effect_frame w1) as (Hc2 & Hs2 & Hd2 & Hi2 & _).
  set (w2 := completion_effect w1) in *.
  assert (interval w2 = timer_of (poll_deps w2)) as Hinv2 by (by rewrite Hi2, Hd2).
  destruct (poll_effect_timer w2 Hinv2) as [Hd3 Hi3].
  destruct (poll_effect_frame w2) as (Hst3 & Hs3 & Hc3 & _).
  set (w3 := poll_effect w2) in *.
  assert (completion_dep w3 = stream_status (stream w3)) as Hc
    by (by rewrite Hc3, Hs3, Hc2, Hs2).
  rewrite (completion_effect_id _ Hc).
  assert (deps_of w3 = deps_of w2) as Hdeps by (unfold deps_of; by rewrite Hst3, Hs3).
  unfold settled. by rewrite Hd3, Hi3, Hdeps.
Qed.

(** A third pass finds nothing to do. *)
Lemma commit_stable (w : Runtime) :
  interval w = timer_of (poll_deps w) -> effects_pass (commit w) = commit w.
Proof.
  intros Hi. destruct (commit_settled w Hi) as (Hd & Hc & _).
  unfold effects_pass. by rewrite (poll_effect_id _ Hd), (completion_effect_id _ Hc).
Qed.

Lemma commit_id (w : Runtime) : settled w -> commit w = w.
Proof.
  intros (Hd & Hc & _). unfold commit, effects_pass.
  by rewrite (poll_effect_id _ Hd), (completion_effect_id _ Hc),
    (poll_effect_id _ Hd), (completion_effect_id _ Hc).
Qed.

Lemma step_settled (w w' : Runtime) (e : Event) :
  settled w -> step w e = Some w' -> settled w'.
Proof.
  intros (_ & _ & Hi). unfold step. destruct (renders _); [|done].
  intros Hw'. assert (w' = commit (handle w e)) as -> by congruence.
  apply commit_settled.
  destruct (handle_frame w e) as (-> & _ & ->). done.
Qed.

Lemma mount_settled (h : Stream) : settled (mount h).
Proof. done. Qed.

Lemma run_settled (es : list Event) (w w' : Runtime) :
  settled w -> run w es = Some w' -> settled w'.
Proof.
  revert w. induction es as [|e es IH]; intros w Hw; simpl.
  - by intros [= <-].
  - destruct (step w e) as [w1|] eqn:Hs; [|done].
    apply IH. by eapply step_settled.
Qed.

Lemma poll_effect_deps (w : Runtime) : poll_deps (poll_effect w) = deps_of w.
Proof.
  unfold poll_effect. fold (deps_of w). case_decide as Hd; [done|].
  destruct (jobId (st w)); [|done]. by destruct (_ || _).
Qed.

Lemma completion_effect_quiet (w : Runtime) :
  ~ completion_fires w ->
  st (completion_effect w) = st w
  /\ calls (completion_effect w) = calls w
  /\ polls (completion_effect w) = polls w
  /\ aggregates (completion_effect w) = aggregates w
  /\ validates (completion_effect w) = validates w
  /\ console (completion_effect w) = console w.
Proof.
  intros Hq. unfold completion_effect. case_decide as Hd; [done|].
  destruct (bool_decide (stream_status (stream w) = completed)) eqn:Hs;
    [|done].
  destruct (bool_decide (stage (st w) = validating)) eqn:Hv; [|done].
  exfalso. apply Hq. apply bool_decide_eq_true in Hs, Hv. done.
Qed.

(** When the completion effect does not fire, no state cell changes in the
    commit and one pass is all of it. *)
Lemma commit_quiet (w : Runtime) :
  ~ completion_fires w -> commit w = completion_effect (poll_effect w).
Proof.
  intros Hq. unfold commit, effects_pass.
  destruct (poll_effect_frame w) as (Hst1 & Hs1 & Hc1 & _).
  assert (~ completion_fires (poll_effect w)) as Hq1.
  { unfold completion_fires. by rewrite Hst1, Hs1, Hc1. }
  destruct (completion_effect_quiet _ Hq1) as (Hst2 & _).
  destruct (completion_effect_frame (poll_effect w)) as (Hc2 & Hs2 & Hd2 & _).
  set (w2 := completion_effect (poll_effect w)) in *.
  rewrite (poll_effect_id w2).
  - apply completion_effect_id. by rewrite Hc2, Hs2.
  - rewrite Hd2, poll_effect_deps. unfold deps_of. by rewrite Hst2, Hs2, Hst1, Hs1.
Qed.

Lemma commit_quiet_fields (w : Runtime) :
  ~ completion_fires w ->
  st (commit w) = st w /\ stream (commit w) = stream w
  /\ interval (commit w) = interval (poll_effect w)
  /\ calls (commit w) = calls (poll_effect w)
  /\ polls (commit w) = polls (poll_effect w)
  /\ aggregates (commit w) = aggregates w
  /\ completion_dep (commit w) = stream_status (stream w).
Proof.
  intros Hq. rewrite (commit_quiet w Hq).
  destruct (poll_effect_frame w) as (Hst1 & Hs1 & Hc1 & Ha1).
  assert (~ completion_fires (poll_effect w)) as Hq1.
  { unfold completion_fires. by rewrite Hst1, Hs1, Hc1. }
  destruct (completion_effect_quiet _ Hq1) as (-> & -> & -> & -> & _).
  destruct (completion_effect_frame (poll_effect w)) as (-> & -> & _ & -> & _).
  by rewrite Hst1, Hs1, Ha1.
Qed.

(** Outside stage [validating] the poll effect sends nothing. *)
Lemma poll_effect_not_validating (w : Runtime) :
  stage (st w) <> validating ->
  calls (poll_effect w) = calls w /\ polls (poll_effect w) = polls w.
Proof.
  intros Hs. unfold poll_effect. case_decide; [done|].
  destruct (jobId (st w)); [|done].
  by rewrite (bool_decide_eq_true_2 _ Hs).
Qed.

End Effects.

(** ** Counting the [aggregate] calls *)

Section Calls.
Import App.

Lemma aggregate_calls_record (w : Runtime) (c : Call) :
  aggregate_calls (record_call c w)
  = (aggregate_calls w + if is_aggregate c then 1 else 0)%nat.
Proof.
  unfold aggregate_calls, record_call. cbn [calls].
  rewrite List.filter_app, length_app. cbn [List.filter].
  by destruct (is_aggregate c).
Qed.

Lemma poll_effect_aggregate_calls (w : Runtime) :
  aggregate_calls (poll_effect w) = aggregate_calls w.
Proof.
  unfold poll_effect. case_decide; [done|].
  destruct (jobId (st w)) as [j|]; [|done].
  destruct (_ || _); [done|].
  unfold issue_getStatus. rewrite aggregate_calls_record. cbn. unfold aggregate_calls. cbn. lia.
Qed.

Lemma handleValidationComplete_calls (w : Runtime) (j : string) :
  j <> "" ->
  aggregate_calls (handleValidationComplete (Some j) w) = S (aggregate_calls w)
  /\ stage (st (handleValidationComplete (Some j) w)) = aggregating
  /\ aggregates (handleValidationComplete (Some j) w) = aggregates w ++ [j].
Proof.
  intros Hj. unfold handleValidationComplete, falsy.
  rewrite bool_decide_eq_false_2 by done.
  unfold issue_aggregate. rewrite aggregate_calls_record. cbn.
  unfold aggregate_calls. cbn. split; [lia|done].
Qed.

Lemma completion_effect_fires (w : Runtime) (j : string) :
  completion_fires w -> jobId (st w) = Some j -> j <> "" ->
  completion_effect w
  = handleValidationComplete (Some j) (with_completion_dep (stream_status (stream w)) w).
Proof.
  intros (Hn & Hs & Hv) Hj Hne. unfold completion_effect.
  rewrite decide_False by done.
  rewrite (bool_decide_eq_true_2 _ Hs), (bool_decide_eq_true_2 _ Hv), Hj. done.
Qed.

(** When the completion effect fires: one [aggregate] call, stage
    [aggregating], and the second pass clears the poll interval. *)
Lemma commit_fires (w : Runtime) (j : string) :
  interval w = timer_of (poll_deps w) ->
  completion_fires w -> jobId (st w) = Some j -> j <> "" ->
  aggregate_calls (commit w) = S (aggregate_calls w)
  /\ stage (st (commit w)) = aggregating
  /\ interval (commit w) = None.
Proof.
  intros Hi Hf Hj Hne. unfold commit, effects_pass.
  destruct (poll_effect_frame w) as (Hst1 & Hs1 & Hc1 & _).
  destruct (poll_effect_timer w Hi) as (Hd1 & Hi1).
  assert (completion_fires (poll_effect w)) as Hf1.
  { unfold completion_fires. by rewrite Hst1, Hs1, Hc1. }
  rewrite (completion_effect_fires (poll_effect w) j Hf1) by (by rewrite ?Hst1).
  set (w1 := with_completion_dep _ (poll_effect w)).
  destruct (handleValidationComplete_calls w1 j Hne) as (Hcalls & Hstage & _).
  assert (poll_deps (handleValidationComplete (Some j) w1) = poll_deps (poll_effect w)
          /\ interval (handleValidationComplete (Some j) w1) = interval (poll_effect w)
          /\ completion_dep (handleValidationComplete (Some j) w1)
             = stream_status (stream (handleValidationComplete (Some j) w1)))
    as (Hd2 & Hi2 & Hc2).
  { unfold handleValidationComplete, falsy.
    by rewrite bool_decide_eq_false_2 by done. }
  set (w2 := handleValidationComplete (Some j) w1) in *.
  assert (completion_dep (poll_effect w2) = stream_status (stream (poll_effect w2))) as Hc3.
  { by destruct (poll_effect_frame w2) as (_ & -> & -> & _). }
  rewrite (completion_effect_id _ Hc3).
  rewrite poll_effect_aggregate_calls, Hcalls.
  destruct (poll_effect_frame w2) as (-> & _).
  split; [|split; [done|]].
  - apply (f_equal S). unfold w1, aggregate_calls. cbn [calls with_completion_dep].
    apply poll_effect_aggregate_calls.
  - destruct (poll_effect_timer w2) as (_ & ->).
    + by rewrite Hi2, Hd2, Hi1, Hd1.
    + unfold deps_of. by rewrite Hstage.
Qed.
End Calls.

(** ** The stage controller *)

(** C7. When the hook reports the stream disconnected while the stage is
    [validating] (and the same render does not also report the job newly
    completed), the commit of that very render installs the interval, which
    was not installed before, and sends one [getStatus] at once, before any
    tick. *)
Theorem poll_starts_on_disconnect (w : App.Runtime) (h : App.Stream) (j : string) :
  App.settled w ->
  App.stage (App.st w) = App.validating ->
  App.jobId (App.st w) = Some j -> j <> "" ->
  App.stream_connected (App.stream w) = true ->
  App.stream_connected h = false ->
  (App.stream_status h = App.stream_status (App.stream w) \/ App.stream_status h <> completed) ->
  Forall (fun r => claim_id r ∉ object_prototype_keys) (App.polledResponses (App.st w)) ->
  App.interval w = None
  /\ exists w',
      App.step w (App.StreamChanged h) = Some w'
      /\ App.interval w' = Some j
      /\ App.calls w' = App.calls w ++ [App.CallGetStatus j]
      /\ App.polls w' = App.polls w ++ [j]
      /\ App.st w' = App.st w.
Proof.
  intros (Hd & Hc & Hi) Hstage Hj Hne Hon Hoff Hstatus Hproto.
  split.
  { rewrite Hi, Hd. unfold App.deps_of. by rewrite Hstage, Hj, Hon. }
  unfold App.step. cbn [App.handle].
  assert (App.renders (App.with_stream h w) = true) as ->.
  { unfold App.renders, App.minerResponses. apply bool_decide_eq_true.
    cbn. rewrite Hoff. by apply group_from_is_Some. }
  eexists. split; [reflexivity|].
  assert (~ App.completion_fires (App.with_stream h w)) as Hq.
  { intros (Hn & Hs & _). cbn in Hn, Hs. destruct Hstatus; congruence. }
  destruct (commit_quiet_fields _ Hq) as (Hst & Hs & Hiv & Hcalls & Hpolls & _).
  assert (App.poll_effect (App.with_stream h w)
          = App.issue_getStatus j
              (App.with_poll_effect (App.validating, Some j, false) (Some j)
                 (App.with_stream h w))) as Hp.
  { unfold App.poll_effect. cbn. rewrite Hd. unfold App.deps_of.
    rewrite Hstage, Hj, Hon, Hoff.
    rewrite decide_False by (intros [=]).
    unfold falsy. rewrite (bool_decide_eq_false_2 (j = "")) by done.
    by rewrite bool_decide_eq_false_2 by (by intros ?). }
  rewrite Hp in Hiv, Hcalls, Hpolls.
  by rewrite Hiv, Hcalls, Hpolls, Hst.
Qed.


Section AfterReset.

Import App.




End AfterReset.


(** The sample states are the ones the event lists lead to. *)
Lemma sample_runs :
  App.run (App.mount Sample.stream_off) Sample.start_job
    = Some (Sample.after Sample.start_job)
  /\ App.run (App.mount Sample.stream_off) Sample.connected_job
    = Some (Sample.after Sample.connected_job)
  /\ App.run (App.mount Sample.stream_off) Sample.aggregating_job
    = Some (Sample.after Sample.aggregating_job)
  /\ App.run (App.mount Sample.stream_off) Sample.two_signals
    = Some (Sample.after Sample.two_signals)
  /\ App.run (App.mount Sample.stream_off) Sample.completed_job
    = Some (Sample.after Sample.completed_job).
Proof. split_and!; vm_compute; reflexivity. Qed.

Lemma sample_settled (es : list App.Event) (w : App.Runtime) :
  App.run (App.mount Sample.stream_off) es = Some w -> App.settled w.
Proof. apply run_settled, mount_settled. Qed.

(** The theorem at the sample job, connected, when the socket drops. *)
Lemma poll_starts_on_disconnect_witness :
  App.interval (Sample.after Sample.connected_job) = None
  /\ exists w',
      App.step (Sample.after Sample.connected_job) (App.StreamChanged Sample.stream_off)
        = Some w'
      /\ App.interval w' = Some "job-1"
      /\ App.calls w' = App.calls (Sample.after Sample.connected_job)
                          ++ [App.CallGetStatus "job-1"]
      /\ App.polls w' = App.polls (Sample.after Sample.connected_job) ++ ["job-1"]
      /\ App.st w' = App.st (Sample.after Sample.connected_job).
Proof.
  apply (poll_starts_on_disconnect (Sample.after Sample.connected_job)
           Sample.stream_off "job-1").
  - apply (sample_settled Sample.connected_job). vm_compute; reflexivity.
  - vm_compute; reflexivity.
  - vm_compute; reflexivity.
  - discriminate.
  - vm_compute; reflexivity.
  - reflexivity.
  - right. discriminate.
  - vm_compute. constructor.
Defined.




(** C1 fails on the code. The first poll is sent when the stage becomes
    [validating], before the socket opens; the stream then reports the job
    completed and the completion effect calls [aggregate]; the answer to the
    poll reports the job completed too, and its continuation, which checks
    neither the stage nor a flag, calls [aggregate] a second time. *)
Theorem aggregate_called_twice_by_stream_and_poll :
  exists w1 w2,
    App.run (App.mount Sample.stream_off) Sample.aggregating_job = Some w1
    /\ App.stage (App.st w1) = App.aggregating
    /\ App.aggregate_calls w1 = 1%nat
    /\ App.step w1 (App.PollSettled 0 (Resolved (Sample.snapshot completed []))) = Some w2
    /\ App.calls w2 =
         [ App.CallValidate "sha256:ab12"; App.CallGetStatus "job-1";
           App.CallAggregate "job-1" true; App.CallAggregate "job-1" true ]
    /\ App.aggregate_calls w2 = 2%nat.
Proof.
  exists (Sample.after Sample.aggregating_job), (Sample.after Sample.two_signals).
  split_and!; vm_compute; reflexivity.
Qed.

(** C5 fails on the code, by the defect of C1. Two polls are out; the first
    answer completes the job and [aggregate] returns a bundle without
    claim-2, which is derived completed because the stage is [complete]; the
    second answer then sets the stage back to [aggregating], and claim-2,
    which has a response, is derived validating. *)
Theorem completed_claim_regresses :
  exists w1 w2 v1 v2,
    App.run (App.mount Sample.stream_off) Sample.completed_job = Some w1
    /\ App.minerResponses (App.st w1) (App.stream w1) = Some v1
    /\ App.getClaimStatuses (App.st w1) v1 !! "claim-2" = Some ClaimStatus.completed
    /\ App.step w1 (App.PollSettled 0 (Resolved (Sample.snapshot completed [Sample.response24])))
       = Some w2
    /\ App.minerResponses (App.st w2) (App.stream w2) = Some v2
    /\ App.getClaimStatuses (App.st w2) v2 !! "claim-2" = Some ClaimStatus.validating.
Proof.
  exists (Sample.after Sample.completed_job).
  exists (Sample.after (Sample.completed_job ++
            [App.PollSettled 0 (Resolved (Sample.snapshot completed [Sample.response24]))])).
  exists (default ∅ (App.minerResponses
            (App.st (Sample.after Sample.completed_job))
            (App.stream (Sample.after Sample.completed_job)))).
  exists (default ∅ (App.minerResponses
            (App.st (Sample.after (Sample.completed_job ++
               [App.PollSettled 0 (Resolved (Sample.snapshot completed [Sample.response24]))])))
            (App.stream (Sample.after (Sample.completed_job ++
               [App.PollSettled 0 (Resolved (Sample.snapshot completed [Sample.response24]))]))))).
  split_and!; vm_compute; reflexivity.
Qed.

(** ** The poll loops *)

Section PollLoops.

Lemma settled_interval (w : App.Runtime) :
  App.settled w ->
  App.interval w = None ->
  App.stage (App.st w) <> App.validating
  \/ falsy (App.jobId (App.st w)) = true
  \/ App.stream_connected (App.stream w) = true.
Proof.
  intros (Hd & _ & Hi). rewrite Hi, Hd. unfold App.deps_of, App.timer_of, falsy.
  destruct (App.stage (App.st w)); try (left; discriminate).
  destruct (App.jobId (App.st w)) as [j|]; [|by right; left].
  destruct (App.stream_connected (App.stream w)); [by right; right|].
  case_bool_decide; [by right; left | discriminate].
Qed.

Lemma dashboard_step_settled (d : LiveDashboard.Runtime) (e : LiveDashboard.Event) :
  LiveDashboard.settled d -> LiveDashboard.settled (LiveDashboard.step d e).
Proof.
  intros [Hd Hi]. unfold LiveDashboard.step, LiveDashboard.poll_effect.
  assert (LiveDashboard.deps (LiveDashboard.handle d e) = LiveDashboard.deps d
          /\ LiveDashboard.interval (LiveDashboard.handle d e) = LiveDashboard.interval d
          /\ LiveDashboard.jobId (LiveDashboard.handle d e) = LiveDashboard.jobId d)
    as (Hd' & Hi' & Hj').
  { destruct e as [|r]; cbn [LiveDashboard.handle].
    - by destruct (LiveDashboard.interval d) eqn:Hint; cbn; rewrite ?Hint.
    - by destruct (LiveDashboard.polls d). }
  case_decide as Heq.
  - split; [done|]. rewrite Hi', Hi. rewrite Hd', Hd, Hj' in Heq. congruence.
  - destruct (LiveDashboard.polling (LiveDashboard.st (LiveDashboard.handle d e)))
      eqn:Hp; unfold LiveDashboard.settled; cbn; by rewrite Hp.
Qed.

Lemma dashboard_failure (d : LiveDashboard.Runtime) (message : option string) :
  LiveDashboard.settled d -> (0 < LiveDashboard.polls d)%nat ->
  let d' := LiveDashboard.step d (LiveDashboard.PollSettled (Rejected message)) in
  LiveDashboard.polling (LiveDashboard.st d') = false
  /\ LiveDashboard.error (LiveDashboard.st d') = Some (or_default message "Failed to fetch status")
  /\ LiveDashboard.interval d' = false
  /\ LiveDashboard.calls d' = LiveDashboard.calls d
  /\ LiveDashboard.step d' LiveDashboard.Tick = d'.
Proof.
  intros Hs Hp d'.
  pose proof (dashboard_step_settled d (LiveDashboard.PollSettled (Rejected message)) Hs)
    as [Hd' Hi'].
  fold d' in Hd', Hi'.
  assert (LiveDashboard.st d'
          = LiveDashboard.poll_settled (Rejected message) (LiveDashboard.st d)
          /\ LiveDashboard.calls d' = LiveDashboard.calls d) as [Hst Hcalls].
  { unfold d', LiveDashboard.step, LiveDashboard.poll_effect.
    cbn [LiveDashboard.handle].
    destruct (LiveDashboard.polls d) as [|n]; [lia|].
    by case_decide. }
  assert (LiveDashboard.polling (LiveDashboard.st d') = false) as Hpolling by (by rewrite Hst).
  split; [done|]. split; [by rewrite Hst|]. split; [by rewrite Hi'|].
  split; [done|].
  unfold LiveDashboard.step, LiveDashboard.poll_effect. cbn [LiveDashboard.handle].
  rewrite Hi', Hpolling. rewrite Hd', Hpolling. by rewrite decide_True.
Qed.

End PollLoops.

(** C8, as the code has it. In [App] a rejected [getStatus] writes one line
    to the console and nothing else: the state cells, the interval and the
    requests made are as before, and the next tick polls again; the interval
    goes away only with a render in which the stage is not [validating],
    there is no job id, or the stream is connected. In [LiveDashboard] a
    rejected [getStatus] stores the error and stops polling: the interval is
    cleared and a tick sends nothing. *)
Theorem poll_failure_handling :
  (forall (w : App.Runtime) (k : nat) (j : string) (detail : option string),
      App.settled w -> App.polls w !! k = Some j -> App.renders w = true ->
      exists w',
        App.step w (App.PollSettled k (Rejected detail)) = Some w'
        /\ App.st w' = App.st w
        /\ App.interval w' = App.interval w
        /\ App.console w' = S (App.console w)
        /\ App.calls w' = App.calls w
        /\ App.polls w' = delete k (App.polls w)
        /\ (forall i, App.interval w = Some i ->
             App.calls (App.handle w' App.Tick) = App.calls w' ++ [App.CallGetStatus i]))
  /\ (forall (w w' : App.Runtime) (e : App.Event),
        App.settled w -> App.step w e = Some w' -> App.interval w' = None ->
        App.stage (App.st w') <> App.validating
        \/ falsy (App.jobId (App.st w')) = true
        \/ App.stream_connected (App.stream w') = true)
  /\ (forall (d : LiveDashboard.Runtime) (message : option string),
        LiveDashboard.settled d -> (0 < LiveDashboard.polls d)%nat ->
        let d' := LiveDashboard.step d (LiveDashboard.PollSettled (Rejected message)) in
        LiveDashboard.polling (LiveDashboard.st d') = false
        /\ LiveDashboard.error (LiveDashboard.st d')
           = Some (or_default message "Failed to fetch status")
        /\ LiveDashboard.interval d' = false
        /\ LiveDashboard.calls d' = LiveDashboard.calls d
        /\ LiveDashboard.step d' LiveDashboard.Tick = d').
Proof.
  split; [|split].
  - intros w k j detail Hw Hk Hr.
    unfold App.step. cbn [App.handle]. rewrite Hk. cbn [App.poll_settled].
    set (w1 := App.console_error (App.with_polls (delete k (App.polls w)) w)).
    change (App.renders w1) with (App.renders w). rewrite Hr.
    assert (App.settled w1) as Hw1 by exact Hw.
    rewrite (commit_id _ Hw1).
    exists w1. split; [done|]. repeat (split; [reflexivity|]).
    intros i Hi. cbn [App.handle].
    change (App.interval w1) with (App.interval w). by rewrite Hi.
  - intros w w' e Hw Hstep Hnone.
    apply settled_interval; [|done]. by eapply step_settled.
  - intros d message. apply dashboard_failure.
Qed.

(** The theorem at the sample job while the first poll is out, and at the
    dashboard as mounted. *)
Lemma poll_failure_handling_witness :
  (exists w',
      App.step (Sample.after Sample.start_job) (App.PollSettled 0 (Rejected None)) = Some w'
      /\ App.interval w' = Some "job-1"
      /\ App.calls (App.handle w' App.Tick)
         = App.calls w' ++ [App.CallGetStatus "job-1"])
  /\ LiveDashboard.interval
       (LiveDashboard.step (LiveDashboard.mount "job-1")
          (LiveDashboard.PollSettled (Rejected None))) = false.
Proof.
  destruct poll_failure_handling as (Happ & _ & Hdash).
  split.
  - destruct (Happ (Sample.after Sample.start_job) 0%nat "job-1" None)
      as (w' & Hstep & _ & Hi & _ & _ & _ & Htick).
    + apply (sample_settled Sample.start_job). vm_compute; reflexivity.
    + vm_compute; reflexivity.
    + vm_compute; reflexivity.
    + exists w'. split; [exact Hstep|]. split.
      * rewrite Hi. vm_compute; reflexivity.
      * apply Htick. vm_compute; reflexivity.
  - destruct (Hdash (LiveDashboard.mount "job-1") None) as (_ & _ & Hi & _).
    + split; reflexivity.
    + cbn. lia.
    + exact Hi.
Defined.

(** C8 as stated fails on [LiveDashboard]: one rejected [getStatus] and the
    loop is over. The interval is cleared, the flag [polling] is off, and the
    ticks that follow send nothing. *)
Lemma dashboard_stops_on_first_failure :
  LiveDashboard.interval (LiveDashboard.mount "job-1") = true
  /\ LiveDashboard.interval
       (LiveDashboard.step (LiveDashboard.mount "job-1")
          (LiveDashboard.PollSettled (Rejected None))) = false
  /\ LiveDashboard.polling
       (LiveDashboard.st
          (LiveDashboard.step (LiveDashboard.mount "job-1")
             (LiveDashboard.PollSettled (Rejected None)))) = false
  /\ LiveDashboard.calls
       (LiveDashboard.step
          (LiveDashboard.step
             (LiveDashboard.step (LiveDashboard.mount "job-1")
                (LiveDashboard.PollSettled (Rejected None)))
             LiveDashboard.Tick)
          LiveDashboard.Tick) = 1%nat.
Proof. split_and!; vm_compute; reflexivity. Qed.

(** ** Attestation *)

Section Attestation.

Import EvidencePanel.

Lemma mount_consistent (p : Props) : consistent (mount p).
Proof. by repeat split. Qed.

Lemma step_consistent (w : Runtime) (e : Event) :
  consistent w -> consistent (step w e).
Proof.
  intros Hw. assert (Hw0 := Hw). destruct Hw0 as (Hf & Ha & Hx).
  destruct e as [| |r]; cbn [step].
  - done.
  - unfold attest_disabled.
    destruct (attesting (st w)) eqn:Hing; cbn [orb]; [done|].
    destruct (attestation (st w)) as [a|] eqn:Hat.
    + by rewrite bool_decide_eq_true_2 by eauto.
    + rewrite bool_decide_eq_false_2 by (by intros [? [=]]).
      unfold consistent, handleAttest. cbn. rewrite length_app, Hf, Ha, Hat. done.
  - destruct (in_flight w) as [|j rest] eqn:Hn; [done|].
    destruct (attesting (st w)) eqn:Hing; [|discriminate Hf].
    cbn in Hf. injection Hf as Hrest. specialize (Hx eq_refl).
    unfold consistent. destruct r as [response|detail]; cbn.
    + rewrite Ha, Hx, Hrest. done.
    + rewrite Ha, Hx, Hrest. done.
Qed.

Lemma feed_consistent (w : Runtime) (i : Input) :
  consistent w -> consistent (feed w i).
Proof.
  destruct i as [e|p]; cbn [feed]; [apply step_consistent | done].
Qed.

Lemma run_consistent (inputs : list Input) (w : Runtime) :
  consistent w -> consistent (run w inputs).
Proof.
  revert w. unfold run. induction inputs as [|i inputs IH]; intros w Hw; cbn [foldl]; [done|].
  by apply IH, feed_consistent.
Qed.

(** Once an attestation is stored, nothing the panel can receive makes a
    call or replaces it. *)
Lemma attested_is_final (inputs : list Input) (w : Runtime) (a : AttestResponse.t) :
  consistent w -> attestation (st w) = Some a ->
  calls (run w inputs) = calls w /\ attested (run w inputs) = attested w
  /\ attestation (st (run w inputs)) = Some a.
Proof.
  revert w. unfold run.
  induction inputs as [|i inputs IH]; intros w Hw Ha; cbn [foldl]; [done|].
  assert (calls (feed w i) = calls w /\ attested (feed w i) = attested w
          /\ attestation (st (feed w i)) = Some a) as (Hc & Hn & Hs).
  { destruct Hw as (Hf & _ & Hx). destruct i as [[| |r]|p]; cbn [feed step].
    - done.
    - unfold attest_disabled. rewrite (bool_decide_eq_true_2 (is_Some _)) by eauto.
      by rewrite orb_true_r.
    - destruct (attesting (st w)) eqn:Hing; [by rewrite Hx in Ha|].
      destruct (in_flight w); [done|discriminate Hf].
    - done. }
  destruct (IH (feed w i)) as (-> & -> & ->); [by apply feed_consistent|done|done].
Qed.

(** A rejected attempt is one call and leaves the button as it was. *)
Lemma rejected_attempt (w : Runtime) :
  attest_disabled (st w) = false -> in_flight w = [] ->
  let w' := step (step w ClickAttest) (AttestSettled (Rejected None)) in
  attest_disabled (st w') = false /\ in_flight w' = []
  /\ calls w' = S (calls w) /\ attested w' = attested w.
Proof.
  intros Hd Hf. cbn [step]. rewrite Hd. unfold handleAttest. cbn.
  rewrite Hf. unfold attest_disabled in *. cbn.
  destruct (attesting (st w)); [done|]. done.
Qed.

Lemma rejected_attempts_calls (n : nat) (w : Runtime) :
  attest_disabled (st w) = false -> in_flight w = [] ->
  calls (run w (rejected_attempts n)) = (calls w + n)%nat
  /\ attested (run w (rejected_attempts n)) = attested w.
Proof.
  revert w. unfold run.
  induction n as [|n IH]; intros w Hd Hf; cbn [rejected_attempts foldl feed].
  - split; [lia|done].
  - destruct (rejected_attempt w Hd Hf) as (Hd' & Hf' & Hc' & Ha').
    destruct (IH _ Hd' Hf') as [-> ->]. rewrite Hc', Ha'. split; [lia|done].
Qed.

End Attestation.

(** C6 fails on the code. The button is disabled by two state cells of the
    panel, and the panel is mounted only while the stage is [complete]. Job-1
    completes and is attested; the answer to a poll that was still in flight
    then reports the job completed again, and its continuation moves the
    stage to [aggregating], which unmounts the panel; when [aggregate]
    resolves again, a fresh panel is mounted for job-1, with its button
    enabled, and the second click gives job-1 a second attestation. *)
Theorem attested_twice_for_one_job :
  exists w1 w2 w3 w4,
    Page.run (Page.mount Sample.stream_off) Sample.attested_job = Some w1
    /\ Page.attestations w1 = [Some "job-1"]
    /\ option_map (fun pw => EvidencePanel.attest_disabled (EvidencePanel.st pw))
         (Page.panel w1) = Some true
    /\ Page.step w1 (Page.OfApp (App.PollSettled 0
                        (Resolved (Sample.snapshot completed [Sample.response24]))))
       = Some w2
    /\ App.stage (App.st (Page.app w2)) = App.aggregating
    /\ Page.panel w2 = None
    /\ Page.step w2 (Page.OfApp (App.AggregateSettled 0 (Resolved Sample.aggregated)))
       = Some w3
    /\ App.jobId (App.st (Page.app w3)) = Some "job-1"
    /\ Page.panel w3 = Some (EvidencePanel.mount Sample.panel_props1)
    /\ Page.run w3
         [ Page.OfPanel EvidencePanel.ClickAttest;
           Page.OfPanel (EvidencePanel.AttestSettled (Resolved Sample.attestation1)) ]
       = Some w4
    /\ Page.attestations w4 = [Some "job-1"; Some "job-1"]
    /\ Page.attestations_of "job-1" w4 = 2%nat.
Proof.
  exists (Sample.page_after Sample.attested_job).
  exists (Sample.page_after (Sample.attested_job ++ take 1 Sample.attested_again)).
  exists (Sample.page_after (Sample.attested_job ++ take 2 Sample.attested_again)).
  exists (Sample.page_after (Sample.attested_job ++ Sample.attested_again)).
  split_and!; vm_compute; reflexivity.
Qed.

(** * Further properties of the code *)

(** ** What holds of [App] after any events *)

Section Reachable.

Import App.

Lemma run_invariant (P : Runtime -> Prop) :
  (forall w e w', settled w -> P w -> step w e = Some w' -> P w') ->
  forall es w w', settled w -> P w -> run w es = Some w' -> P w'.
Proof.
  intros Hstep es. induction es as [|e es IH]; intros w w' Hw HP; cbn [run].
  - by intros [= <-].
  - destruct (step w e) as [w1|] eqn:Hs; [|done].
    apply IH; [by eapply step_settled | by eapply Hstep].
Qed.

Lemma commit_preserves (P : Runtime -> Prop) :
  (forall w, P w -> P (poll_effect w)) ->
  (forall w, P w -> P (completion_effect w)) ->
  forall w, P w -> P (commit w).
Proof.
  intros Hp Hc w HP. unfold commit, effects_pass. by apply Hc, Hp, Hc, Hp.
Qed.

Lemma step_preserves (P : Runtime -> Prop) :
  (forall w e, settled w -> P w -> P (handle w e)) ->
  (forall w, P w -> P (poll_effect w)) ->
  (forall w, P w -> P (completion_effect w)) ->
  forall w e w', settled w -> P w -> step w e = Some w' -> P w'.
Proof.
  intros Hh Hp Hc w e w' Hw HP. unfold step. destruct (renders _); [|done].
  intros Heq. assert (w' = commit (handle w e)) as -> by congruence.
  apply commit_preserves; [done|done|]. by apply Hh.
Qed.

Lemma settled_interval_Some (w : Runtime) (j : string) :
  settled w ->
  interval w = Some j <->
  stage (st w) = validating /\ jobId (st w) = Some j /\ j <> ""
  /\ stream_connected (stream w) = false.
Proof.
  intros (Hd & _ & Hi). rewrite Hi, Hd. unfold deps_of, timer_of.
  destruct (stage (st w)); try (split; [done | by intros [? _]]).
  destruct (jobId (st w)) as [j'|]; [|split; [done | by intros (_ & ? & _)]].
  destruct (stream_connected (stream w)); [split; [done | by intros (_ & _ & _ & ?)]|].
  case_bool_decide as Hj.
  - split; [done|]. intros (_ & [= ->] & Hne & _). done.
  - split.
    + intros [= ->]. done.
    + by intros (_ & [= ->] & _).
Qed.

Lemma issue_getStatus_well_formed (w : Runtime) (j : string) :
  j <> "" -> well_formed_calls w -> well_formed_calls (issue_getStatus j w).
Proof.
  intros Hj (Hc & Hp & Ha). unfold well_formed_calls, issue_getStatus. cbn.
  split; [|split; [|done]]; apply Forall_app; split; try done; by repeat constructor.
Qed.

Lemma handleValidationComplete_well_formed (w : Runtime) (j : option string) :
  well_formed_calls w -> well_formed_calls (handleValidationComplete j w).
Proof.
  intros Hw. unfold handleValidationComplete. destruct j as [j|]; [|done].
  unfold falsy. case_bool_decide as Hj; [done|].
  destruct Hw as (Hc & Hp & Ha). unfold well_formed_calls, issue_aggregate. cbn.
  split; [|split; [done|]]; apply Forall_app; split; try done; by repeat constructor.
Qed.

Lemma poll_effect_well_formed (w : Runtime) :
  well_formed_calls w -> well_formed_calls (poll_effect w).
Proof.
  intros Hw. unfold poll_effect. case_decide; [done|].
  destruct (jobId (st w)) as [j|] eqn:Hj; [|done].
  destruct (_ || _) eqn:Hg; [done|].
  apply issue_getStatus_well_formed; [|done].
  apply orb_false_iff in Hg as [Hg _]. apply orb_false_iff in Hg as [_ Hg].
  unfold falsy in Hg. by apply bool_decide_eq_false in Hg.
Qed.

Lemma completion_effect_well_formed (w : Runtime) :
  well_formed_calls w -> well_formed_calls (completion_effect w).
Proof.
  intros Hw. unfold completion_effect. case_decide; [done|].
  destruct (_ && _); [|done].
  by apply handleValidationComplete_well_formed.
Qed.

Lemma handle_well_formed (w : Runtime) (e : Event) :
  settled w -> well_formed_calls w -> well_formed_calls (handle w e).
Proof.
  intros Hs Hw. destruct e as [result auto|k r| |k r|k r|h|]; cbn [handle].
  - unfold handleIngestComplete. destruct auto; [|done].
    destruct Hw as (Hc & Hp & Ha). unfold well_formed_calls, issue_validate. cbn.
    split; [|done]. apply Forall_app. split; [done|]. by repeat constructor.
  - destruct (validates w !! k); [|done]. by destruct r.
  - destruct (interval w) as [j|] eqn:Hi; [|done].
    apply issue_getStatus_well_formed; [|done].
    by apply (settled_interval_Some w j Hs) in Hi as (_ & _ & ? & _).
  - destruct (polls w !! k) as [j|] eqn:Hk; [|done].
    assert (well_formed_calls (with_polls (delete k (polls w)) w)) as Hw1.
    { destruct Hw as (Hc & Hp & Ha). split; [done|]. split; [|done].
      cbn. by apply Forall_delete. }
    destruct r as [s|d]; cbn [poll_settled]; [|done].
    destruct (bool_decide _); [|done].
    by apply handleValidationComplete_well_formed.
  - destruct (aggregates w !! k) as [j|] eqn:Hk; [|done].
    assert (well_formed_calls (with_aggregates (delete k (aggregates w)) w)) as Hw1.
    { destruct Hw as (Hc & Hp & Ha). split; [done|]. split; [done|].
      cbn. by apply Forall_delete. }
    by destruct r.
  - done.
  - done.
Qed.

End Reachable.

(** X1. Every [getStatus] and [aggregate] call that [App] ever makes names a
    non-empty job id, and [aggregate] is always called with [publish: true];
    the same holds of the requests in flight. *)
Theorem calls_name_a_job (h : App.Stream) (es : list App.Event) (w : App.Runtime) :
  App.run (App.mount h) es = Some w ->
  Forall App.call_well_formed (App.calls w)
  /\ Forall (fun j => j <> "") (App.polls w)
  /\ Forall (fun j => j <> "") (App.aggregates w).
Proof.
  intros Hrun.
  apply (run_invariant App.well_formed_calls) with (es := es) (w := App.mount h);
    [|apply mount_settled| |done].
  - apply step_preserves.
    + apply handle_well_formed.
    + apply poll_effect_well_formed.
    + apply completion_effect_well_formed.
  - by repeat split.
Qed.

Lemma calls_name_a_job_witness :
  Forall App.call_well_formed (App.calls (Sample.after Sample.two_signals)).
Proof.
  apply (calls_name_a_job Sample.stream_off Sample.two_signals).
  vm_compute; reflexivity.
Defined.

(** X2. After any events the poll interval is installed exactly when the
    stage is [validating], there is a non-empty job id and the stream is not
    connected; in particular a tick sends nothing while the stream is
    connected. *)
Theorem interval_iff_validating_disconnected
    (h : App.Stream) (es : list App.Event) (w : App.Runtime) :
  App.run (App.mount h) es = Some w ->
  (forall j,
      App.interval w = Some j <->
      App.stage (App.st w) = App.validating /\ App.jobId (App.st w) = Some j
      /\ j <> "" /\ App.stream_connected (App.stream w) = false)
  /\ (App.stream_connected (App.stream w) = true -> App.handle w App.Tick = w).
Proof.
  intros Hrun. pose proof (run_settled es _ _ (mount_settled h) Hrun) as Hw.
  split; [intros j; by apply settled_interval_Some|].
  intros Hon. cbn [App.handle].
  destruct (App.interval w) as [j|] eqn:Hi; [|done].
  apply (settled_interval_Some w j Hw) in Hi as (_ & _ & _ & Hoff). congruence.
Qed.

Lemma interval_iff_validating_disconnected_witness :
  App.interval (Sample.after Sample.start_job) = Some "job-1"
  /\ App.handle (Sample.after Sample.connected_job) App.Tick
     = Sample.after Sample.connected_job.
Proof.
  split.
  - apply (interval_iff_validating_disconnected Sample.stream_off Sample.start_job);
      [vm_compute; reflexivity|].
    split_and!; [vm_compute; reflexivity | vm_compute; reflexivity | discriminate
                | vm_compute; reflexivity].
  - apply (interval_iff_validating_disconnected Sample.stream_off Sample.connected_job);
      vm_compute; reflexivity.
Defined.

(** ** One commit, with and without an [aggregate] call *)

Section Commit.

Import App.

Lemma poll_effect_frame_more (w : Runtime) :
  validates (poll_effect w) = validates w
  /\ console (poll_effect w) = console w
  /\ (stream_connected (stream w) = true ->
      polls (poll_effect w) = polls w /\ calls (poll_effect w) = calls w).
Proof.
  unfold poll_effect. case_decide; [done|].
  destruct (jobId (st w)) as [j|]; [|done].
  destruct (stream_connected (stream w)).
  - by rewrite orb_true_r.
  - destruct (_ || _); done.
Qed.

Lemma handleValidationComplete_frame (w : Runtime) (j : option string) :
  polls (handleValidationComplete j w) = polls w
  /\ validates (handleValidationComplete j w) = validates w
  /\ console (handleValidationComplete j w) = console w
  /\ stream (handleValidationComplete j w) = stream w
  /\ jobId (st (handleValidationComplete j w)) = jobId (st w)
  /\ evidenceBundle (st (handleValidationComplete j w)) = evidenceBundle (st w)
  /\ proposal (st (handleValidationComplete j w)) = proposal (st w).
Proof.
  unfold handleValidationComplete. destruct j as [j|]; [|done].
  by destruct (falsy _).
Qed.

Lemma completion_effect_frame_more (w : Runtime) :
  polls (completion_effect w) = polls w
  /\ validates (completion_effect w) = validates w
  /\ console (completion_effect w) = console w
  /\ evidenceBundle (st (completion_effect w)) = evidenceBundle (st w)
  /\ proposal (st (completion_effect w)) = proposal (st w).
Proof.
  unfold completion_effect. case_decide; [done|].
  destruct (_ && _); [|done].
  destruct (handleValidationComplete_frame
              (with_completion_dep (stream_status (stream w)) w) (jobId (st w)))
    as (-> & -> & -> & _ & _ & -> & ->).
  done.
Qed.

(** Without a job id, or without a fresh completed status in stage
    [validating], the completion effect leaves state and calls alone. *)
Lemma completion_effect_idle (w : Runtime) :
  ~ completion_calls_aggregate w ->
  st (completion_effect w) = st w
  /\ calls (completion_effect w) = calls w
  /\ aggregates (completion_effect w) = aggregates w.
Proof.
  intros Hidle. unfold completion_effect. case_decide as Hd; [done|].
  destruct (bool_decide (stream_status (stream w) = completed)) eqn:Hs; [|done].
  destruct (bool_decide (stage (st w) = validating)) eqn:Hv; [|done].
  cbn [andb]. apply bool_decide_eq_true in Hs, Hv.
  unfold handleValidationComplete. destruct (jobId (st w)) as [j|] eqn:Hj; [|done].
  destruct (falsy (Some j)) eqn:Hf; [done|].
  exfalso. apply Hidle. split; [done|]. by rewrite Hj.
Qed.

Lemma commit_idle (w : Runtime) :
  ~ completion_calls_aggregate w ->
  st (commit w) = st w
  /\ aggregate_calls (commit w) = aggregate_calls w
  /\ aggregates (commit w) = aggregates w.
Proof.
  intros Hidle. unfold commit, effects_pass.
  destruct (poll_effect_frame w) as (Hst1 & Hs1 & Hc1 & Ha1).
  assert (~ completion_calls_aggregate (poll_effect w)) as Hidle1.
  { unfold completion_calls_aggregate, completion_fires. by rewrite Hst1, Hs1, Hc1. }
  destruct (completion_effect_idle _ Hidle1) as (Hst2 & Hcalls2 & Ha2).
  destruct (completion_effect_frame (poll_effect w)) as (Hc2 & Hs2 & _).
  set (w2 := completion_effect (poll_effect w)) in *.
  destruct (poll_effect_frame w2) as (Hst3 & Hs3 & Hc3 & Ha3).
  assert (completion_dep (poll_effect w2) = stream_status (stream (poll_effect w2))) as Hq
    by (by rewrite Hc3, Hs3, Hc2, Hs2).
  rewrite (completion_effect_id _ Hq), Hst3, Ha3, Hst2, Ha2, Hst1, Ha1.
  split; [done|]. split; [|done].
  rewrite poll_effect_aggregate_calls. unfold aggregate_calls at 1. rewrite Hcalls2.
  apply poll_effect_aggregate_calls.
Qed.

(** With them, it calls [aggregate] once for the job of this render. *)
Lemma commit_calls_aggregate (w : Runtime) (j : string) :
  interval w = timer_of (poll_deps w) ->
  completion_fires w -> jobId (st w) = Some j -> j <> "" ->
  st (commit w) = setStage aggregating (st w)
  /\ aggregates (commit w) = aggregates w ++ [j]
  /\ aggregate_calls (commit w) = S (aggregate_calls w)
  /\ interval (commit w) = None.
Proof.
  intros Hi Hf Hj Hne.
  destruct (commit_fires w j Hi Hf Hj Hne) as (Hcalls & _ & Hiv).
  split; [|split; [|done]].
  - unfold commit, effects_pass.
    destruct (poll_effect_frame w) as (Hst1 & Hs1 & Hc1 & Ha1).
    assert (completion_fires (poll_effect w)) as Hf1.
    { unfold completion_fires. by rewrite Hst1, Hs1, Hc1. }
    rewrite (completion_effect_fires (poll_effect w) j Hf1) by (by rewrite ?Hst1).
    set (w2 := handleValidationComplete (Some j) _).
    assert (st w2 = setStage aggregating (st w) /\ completion_dep w2 = stream_status (stream w2))
      as [Hst2 Hc2].
    { unfold w2, handleValidationComplete, falsy.
      rewrite bool_decide_eq_false_2 by done. cbn. by rewrite Hst1. }
    destruct (poll_effect_frame w2) as (Hst3 & Hs3 & Hc3 & _).
    rewrite completion_effect_id by (by rewrite Hc3, Hs3).
    by rewrite Hst3.
  - unfold commit, effects_pass.
    destruct (poll_effect_frame w) as (Hst1 & Hs1 & Hc1 & Ha1).
    assert (completion_fires (poll_effect w)) as Hf1.
    { unfold completion_fires. by rewrite Hst1, Hs1, Hc1. }
    rewrite (completion_effect_fires (poll_effect w) j Hf1) by (by rewrite ?Hst1).
    set (w2 := handleValidationComplete (Some j) _).
    assert (aggregates w2 = aggregates w ++ [j] /\ completion_dep w2 = stream_status (stream w2))
      as [Ha2 Hc2].
    { unfold w2, handleValidationComplete, falsy.
      rewrite bool_decide_eq_false_2 by done. cbn. by rewrite Ha1. }
    destruct (poll_effect_frame w2) as (Hst3 & Hs3 & Hc3 & Ha3).
    rewrite completion_effect_id by (by rewrite Hc3, Hs3).
    by rewrite Ha3.
Qed.

Lemma renders_connected (w : Runtime) :
  stream_connected (stream w) = true -> renders w = true.
Proof.
  intros Hon. unfold renders, minerResponses. rewrite Hon.
  apply bool_decide_eq_true. by eauto.
Qed.

End Commit.

(** X3. A change of the hook's value while it is connected calls [aggregate]
    at most once: exactly once, for the current job id, when the status has
    just become completed in stage [validating], after which the stage is
    [aggregating] and the poll interval is gone; and not at all when the
    status is as it was, is not completed, or the stage is not
    [validating], in which case no state cell changes. *)
Theorem stream_completion_aggregates_once (w : App.Runtime) (h : App.Stream) :
  App.settled w -> App.stream_connected h = true ->
  exists w',
    App.step w (App.StreamChanged h) = Some w'
    /\ (forall j,
          App.stage (App.st w) = App.validating ->
          App.jobId (App.st w) = Some j -> j <> "" ->
          App.stream_status (App.stream w) <> completed ->
          App.stream_status h = completed ->
          App.st w' = App.setStage App.aggregating (App.st w)
          /\ App.aggregates w' = App.aggregates w ++ [j]
          /\ App.aggregate_calls w' = S (App.aggregate_calls w)
          /\ App.interval w' = None)
    /\ (App.stream_status h = App.stream_status (App.stream w)
        \/ App.stream_status h <> completed
        \/ App.stage (App.st w) <> App.validating ->
        App.st w' = App.st w
        /\ App.aggregates w' = App.aggregates w
        /\ App.aggregate_calls w' = App.aggregate_calls w).
Proof.
  intros (Hd & Hc & Hi) Hon. unfold App.step. cbn [App.handle].
  rewrite (renders_connected (App.with_stream h w)) by exact Hon.
  eexists. split; [reflexivity|]. split.
  - intros j Hstage Hj Hne Hold Hnew.
    apply (commit_calls_aggregate (App.with_stream h w) j); try done.
    unfold App.completion_fires. cbn. rewrite Hc. split; [congruence|done].
  - intros Hquiet.
    destruct (commit_idle (App.with_stream h w)) as (Hst & Hcalls & Hag); [|done].
    intros [(Hn & Hs & Hv) _]. cbn in Hn, Hs, Hv. rewrite Hc in Hn.
    destruct Hquiet as [?|[?|?]]; congruence.
Qed.

Lemma stream_completion_aggregates_once_witness :
  exists w',
    App.step (Sample.after Sample.connected_job) (App.StreamChanged Sample.stream_done)
      = Some w'
    /\ App.aggregate_calls w' = 1%nat
    /\ App.interval w' = None.
Proof.
  destruct (stream_completion_aggregates_once (Sample.after Sample.connected_job)
              Sample.stream_done) as (w' & Hstep & Hfire & _).
  - apply (sample_settled Sample.connected_job). vm_compute; reflexivity.
  - reflexivity.
  - exists w'. split; [exact Hstep|].
    destruct (Hfire "job-1") as (_ & _ & Hcalls & Hiv).
    + vm_compute; reflexivity.
    + vm_compute; reflexivity.
    + discriminate.
    + vm_compute. discriminate.
    + reflexivity.
    + split; [|exact Hiv]. rewrite Hcalls. vm_compute; reflexivity.
Defined.

(** X4. When [aggregate] resolves, in whatever stage the answer finds the
    component, the stage becomes [complete], the bundle and the content
    address of the answer are stored, no call is made and no request is
    added to the ones in flight, the poll interval is not installed, and
    every claim of the proposal is derived completed, whether the bundle
    lists it or not. *)
Theorem aggregate_success_completes
    (w : App.Runtime) (k : nat) (j : string) (a : AggregateResponse.t) :
  App.settled w -> App.aggregates w !! k = Some j -> App.renders w = true ->
  exists w',
    App.step w (App.AggregateSettled k (Resolved a)) = Some w'
    /\ App.stage (App.st w') = App.complete
    /\ App.evidenceBundle (App.st w') = Some (AggregateResponse.evidence_bundle a)
    /\ App.ipfsCid (App.st w') = AggregateResponse.ipfs_cid a
    /\ App.proposal (App.st w') = App.proposal (App.st w)
    /\ App.calls w' = App.calls w
    /\ App.polls w' = App.polls w
    /\ App.aggregate_calls w' = App.aggregate_calls w
    /\ App.aggregates w' = delete k (App.aggregates w)
    /\ App.interval w' = None
    /\ (forall view p c,
          App.proposal (App.st w) = Some p -> c ∈ IngestResponse.claims p ->
          App.getClaimStatuses (App.st w') view !! Claim.id c
          = Some ClaimStatus.completed).
Proof.
  intros Hw Hk Hr. assert (Hw0 := Hw). destruct Hw0 as (Hd & Hc & Hi).
  destruct (App.step w (App.AggregateSettled k (Resolved a))) as [w'|] eqn:Hstep.
  2:{ exfalso. unfold App.step in Hstep. cbn [App.handle] in Hstep. rewrite Hk in Hstep.
      change (App.renders _) with (App.renders w) in Hstep. by rewrite Hr in Hstep. }
  pose proof (step_settled _ _ _ Hw Hstep) as Hw'.
  exists w'. split; [done|].
  unfold App.step in Hstep. cbn [App.handle] in Hstep. rewrite Hk in Hstep.
  set (w1 := App.aggregate_settled (Resolved a)
               (App.with_aggregates (delete k (App.aggregates w)) w)) in *.
  change (App.renders w1) with (App.renders w) in Hstep. rewrite Hr in Hstep.
  assert (w' = App.commit w1) as Hw1 by congruence. clear Hstep.
  assert (~ App.completion_calls_aggregate w1) as Hidle.
  { intros [(_ & _ & Hv) _]. discriminate Hv. }
  assert (~ App.completion_fires w1) as Hquiet.
  { intros (_ & _ & Hv). discriminate Hv. }
  destruct (commit_idle w1 Hidle) as (Hst & Hcalls & Hag).
  destruct (commit_quiet_fields w1 Hquiet) as (_ & _ & _ & Hall & Hpolls & _).
  destruct (poll_effect_not_validating w1) as [Hall1 Hpolls1]; [discriminate|].
  rewrite Hall1 in Hall. rewrite Hpolls1 in Hpolls.
  rewrite <- Hw1 in Hst, Hcalls, Hag, Hall, Hpolls.
  assert (App.stage (App.st w') = App.complete) as Hstage by (by rewrite Hst).
  split; [done|]. rewrite Hst, Hcalls, Hag, Hall, Hpolls.
  repeat (split; [reflexivity|]).
  split.
  - destruct (App.interval w') as [i|] eqn:Hiv; [|done].
    apply (settled_interval_Some w' i Hw') in Hiv as (Hv & _). congruence.
  - intros view p c Hp Hin. rewrite getClaimStatuses_lookup. cbn [App.proposal].
    change (App.proposal (App.st w1)) with (App.proposal (App.st w)). rewrite Hp.
    rewrite decide_True by (apply list_elem_of_fmap; eauto).
    unfold App.claim_status. by rewrite bool_decide_eq_true_2.
Qed.

Lemma aggregate_success_completes_witness :
  exists w',
    App.step (Sample.after Sample.aggregating_job)
      (App.AggregateSettled 0 (Resolved Sample.aggregated)) = Some w'
    /\ App.stage (App.st w') = App.complete
    /\ App.calls w' = App.calls (Sample.after Sample.aggregating_job)
    /\ App.getClaimStatuses (App.st w') ∅ !! "claim-2" = Some ClaimStatus.completed.
Proof.
  destruct (aggregate_success_completes (Sample.after Sample.aggregating_job)
              0 "job-1" Sample.aggregated)
    as (w' & Hstep & Hstage & _ & _ & _ & Hcalls & _ & _ & _ & _ & Hall).
  - apply (sample_settled Sample.aggregating_job). vm_compute; reflexivity.
  - vm_compute; reflexivity.
  - vm_compute; reflexivity.
  - exists w'. split; [exact Hstep|]. split; [exact Hstage|]. split; [exact Hcalls|].
    apply (Hall ∅ Sample.ingested Sample.claim2).
    + vm_compute; reflexivity.
    + right. by left.
Defined.

(** ** The start and the end of a job *)

Section JobStart.

Import App.

Lemma commit_frame (w : Runtime) :
  stream (commit w) = stream w
  /\ validates (commit w) = validates w
  /\ console (commit w) = console w
  /\ proposal (st (commit w)) = proposal (st w)
  /\ evidenceBundle (st (commit w)) = evidenceBundle (st w)
  /\ jobId (st (commit w)) = jobId (st w)
  /\ (stream_connected (stream w) = true -> polls (commit w) = polls w).
Proof.
  unfold commit, effects_pass.
  destruct (poll_effect_frame w) as (Hst1 & Hs1 & _).
  destruct (poll_effect_frame_more w) as (Hv1 & Hn1 & Hon1).
  destruct (completion_effect_frame (poll_effect w)) as (_ & Hs2 & _ & _ & Hj2).
  destruct (completion_effect_frame_more (poll_effect w)) as (Hp2 & Hv2 & Hn2 & Hb2 & Hpr2).
  set (w2 := completion_effect (poll_effect w)) in *.
  destruct (poll_effect_frame w2) as (Hst3 & Hs3 & _).
  destruct (poll_effect_frame_more w2) as (Hv3 & Hn3 & Hon3).
  destruct (completion_effect_frame (poll_effect w2)) as (_ & Hs4 & _ & _ & Hj4).
  destruct (completion_effect_frame_more (poll_effect w2)) as (Hp4 & Hv4 & Hn4 & Hb4 & Hpr4).
  rewrite Hs4, Hs3, Hs2, Hs1, Hv4, Hv3, Hv2, Hv1, Hn4, Hn3, Hn2, Hn1.
  rewrite Hpr4, Hb4, Hj4, Hst3, Hpr2, Hb2, Hj2, Hst1.
  repeat (split; [reflexivity|]).
  intros Hon. rewrite Hp4.
  destruct Hon3 as [-> _]; [by rewrite Hs2, Hs1|].
  rewrite Hp2. by destruct (Hon1 Hon) as [-> _].
Qed.

End JobStart.

(** X5. From the mounted component, an ingest result and a resolved
    [validate] with a non-empty job id lead to stage [validating] with the
    proposal and the job id stored; when the stream is not connected the
    first [getStatus] for that job is sent in the same commit and the
    interval is installed, and when it is connected no poll is sent. A
    rejected [validate] leaves the stage at [input] with the proposal
    stored, shows the detail of the rejection or the fixed message, and
    starts nothing. *)
Theorem job_start (h : App.Stream) (r : IngestResponse.t) :
  (forall v : ValidateResponse.t,
      ValidateResponse.job_id v <> "" ->
      exists w,
        App.run (App.mount h)
          [App.IngestComplete r true; App.ValidateSettled 0 (Resolved v)] = Some w
        /\ App.stage (App.st w) = App.validating
        /\ App.proposal (App.st w) = Some r
        /\ App.jobId (App.st w) = Some (ValidateResponse.job_id v)
        /\ App.error (App.st w) = None
        /\ App.validates w = []
        /\ if App.stream_connected h
           then App.calls w = [App.CallValidate (IngestResponse.proposal_hash r)]
                /\ App.interval w = None /\ App.polls w = []
           else App.calls w = [App.CallValidate (IngestResponse.proposal_hash r);
                               App.CallGetStatus (ValidateResponse.job_id v)]
                /\ App.interval w = Some (ValidateResponse.job_id v)
                /\ App.polls w = [ValidateResponse.job_id v])
  /\ (forall detail : option string,
        exists w,
          App.run (App.mount h)
            [App.IngestComplete r true; App.ValidateSettled 0 (Rejected detail)] = Some w
          /\ App.stage (App.st w) = App.input
          /\ App.proposal (App.st w) = Some r
          /\ App.jobId (App.st w) = None
          /\ App.error (App.st w) = Some (or_default detail "Failed to start validation")
          /\ App.calls w = [App.CallValidate (IngestResponse.proposal_hash r)]
          /\ App.interval w = None /\ App.polls w = []).
Proof.
  set (w1 := App.handleIngestComplete r true (App.mount h)).
  assert (App.step (App.mount h) (App.IngestComplete r true) = Some w1) as Hstep1.
  { unfold App.step. cbn [App.handle]. fold w1.
    assert (App.renders w1 = true) as ->.
    { unfold App.renders, App.minerResponses. cbn. apply bool_decide_eq_true.
      destruct (App.stream_connected h); by eauto. }
    rewrite commit_id; [done|]. by repeat split. }
  assert (App.validates w1 !! 0%nat = Some (IngestResponse.proposal_hash r)) as Hval1
    by reflexivity.
  split.
  - intros v Hv. cbn [App.run]. rewrite Hstep1.
    unfold App.step. cbn [App.handle]. rewrite Hval1.
    set (w2 := App.validate_settled (Resolved v) _).
    assert (App.renders w2 = true) as ->.
    { unfold App.renders, App.minerResponses. cbn. apply bool_decide_eq_true.
      destruct (App.stream_connected h); by eauto. }
    eexists. split; [reflexivity|].
    assert (~ App.completion_fires w2) as Hq by (by intros (Hn & _)).
    destruct (commit_quiet_fields w2 Hq) as (Hst & _ & Hiv & Hcalls & Hpolls & _).
    destruct (commit_frame w2) as (_ & Hval & _).
    rewrite Hst, Hiv, Hcalls, Hpolls, Hval.
    repeat (split; [reflexivity|]).
    unfold App.poll_effect. cbn.
    rewrite decide_False by (intros [=]).
    unfold falsy. rewrite (bool_decide_eq_false_2 (ValidateResponse.job_id v = "")) by done.
    rewrite bool_decide_eq_false_2 by (by intros ?). cbn.
    by destruct (App.stream_connected h).
  - intros detail. cbn [App.run]. rewrite Hstep1.
    unfold App.step. cbn [App.handle]. rewrite Hval1.
    set (w2 := App.validate_settled (Rejected detail) _).
    assert (App.renders w2 = true) as ->.
    { unfold App.renders, App.minerResponses. cbn. apply bool_decide_eq_true.
      destruct (App.stream_connected h); by eauto. }
    rewrite commit_id by (by repeat split).
    eexists. split; [reflexivity|]. by repeat split.
Qed.

Lemma job_start_witness :
  exists w,
    App.run (App.mount Sample.stream_off) Sample.start_job = Some w
    /\ App.calls w = [App.CallValidate "sha256:ab12"; App.CallGetStatus "job-1"]
    /\ App.interval w = Some "job-1".
Proof.
  destruct (job_start Sample.stream_off Sample.ingested) as [Hok _].
  destruct (Hok Sample.validated) as (w & Hrun & _ & _ & _ & _ & _ & Hcalls & Hiv & _).
  - discriminate.
  - exists w. split; [exact Hrun|]. split; [exact Hcalls | exact Hiv].
Defined.

Section Bundle.

Import App.

Lemma completion_effect_stage (w : Runtime) :
  st (completion_effect w) = st w \/ stage (st (completion_effect w)) = aggregating.
Proof.
  unfold completion_effect. case_decide; [by left|].
  destruct (_ && _); [|by left].
  unfold handleValidationComplete. destruct (jobId (st w)); [|by left].
  destruct (falsy _); [by left | by right].
Qed.

Lemma handle_complete_has_bundle (w : Runtime) (e : Event) :
  complete_has_bundle w -> complete_has_bundle (handle w e).
Proof.
  intros Hw. unfold complete_has_bundle.
  destruct e as [result auto|k r| |k r|k r|h|]; cbn [handle].
  - unfold handleIngestComplete. by destruct auto.
  - destruct (validates w !! k); [|done]. by destruct r.
  - by destruct (interval w).
  - destruct (polls w !! k) as [j|]; [|done].
    destruct r as [s|d]; [|done]. cbn [poll_settled].
    destruct (bool_decide _); [|done].
    unfold handleValidationComplete, falsy. by case_bool_decide.
  - destruct (aggregates w !! k); [|done]. destruct r; [by eauto|done].
  - done.
  - done.
Qed.

End Bundle.

(** X6. Whatever happens, stage [complete] comes with a stored evidence
    bundle: the results section, which renders under
    [stage === 'complete' && evidenceBundle], is never left blank. *)
Theorem complete_stage_has_bundle (h : App.Stream) (es : list App.Event) (w : App.Runtime) :
  App.run (App.mount h) es = Some w ->
  App.stage (App.st w) = App.complete ->
  exists b, App.evidenceBundle (App.st w) = Some b.
Proof.
  intros Hrun.
  apply (run_invariant App.complete_has_bundle) with (es := es) (w := App.mount h);
    [|apply mount_settled|done|done].
  apply step_preserves.
  - intros w0 e _. apply handle_complete_has_bundle.
  - intros w0 Hw0. unfold App.complete_has_bundle.
    by destruct (poll_effect_frame w0) as (-> & _).
  - intros w0 Hw0. unfold App.complete_has_bundle.
    destruct (completion_effect_stage w0) as [-> | ->]; done.
Qed.

Lemma complete_stage_has_bundle_witness :
  exists b, App.evidenceBundle (App.st (Sample.after Sample.completed_job)) = Some b.
Proof.
  apply (complete_stage_has_bundle Sample.stream_off Sample.completed_job);
    vm_compute; reflexivity.
Defined.

(** X7. A reset in any stage puts every state cell back to its initial
    value, leaves no poll interval, and neither sends nor cancels a
    request. *)
Theorem reset_from_any_stage (w : App.Runtime) :
  App.settled w ->
  exists w',
    App.step w App.Reset = Some w'
    /\ App.st w' = App.initial
    /\ App.interval w' = None
    /\ App.calls w' = App.calls w
    /\ App.polls w' = App.polls w
    /\ App.aggregates w' = App.aggregates w
    /\ App.validates w' = App.validates w.
Proof.
  intros Hw.
  destruct (App.step w App.Reset) as [w'|] eqn:Hstep.
  2:{ exfalso. unfold App.step in Hstep. cbn [App.handle] in Hstep.
      assert (App.renders (App.handleReset w) = true) as Hr.
      { unfold App.renders, App.minerResponses. cbn. apply bool_decide_eq_true.
        destruct (App.stream_connected (App.stream w)); by eauto. }
      by rewrite Hr in Hstep. }
  pose proof (step_settled _ _ _ Hw Hstep) as Hw'.
  exists w'. split; [done|].
  unfold App.step in Hstep. cbn [App.handle] in Hstep.
  destruct (App.renders (App.handleReset w)); [|done].
  assert (w' = App.commit (App.handleReset w)) as Heq by congruence. clear Hstep.
  assert (~ App.completion_fires (App.handleReset w)) as Hq.
  { intros (_ & _ & Hv). discriminate Hv. }
  destruct (commit_quiet_fields _ Hq) as (Hst & _ & _ & Hcalls & Hpolls & Hag & _).
  destruct (commit_frame (App.handleReset w)) as (_ & Hval & _).
  destruct (poll_effect_not_validating (App.handleReset w)) as [Hc Hp]; [done|].
  rewrite <- Heq in *.
  split; [by rewrite Hst|]. split.
  - destruct (App.interval w') as [i|] eqn:Hiv; [|done].
    apply (settled_interval_Some w' i Hw') in Hiv as (Hv & _).
    rewrite Hst in Hv. discriminate Hv.
  - by rewrite Hcalls, Hc, Hpolls, Hp, Hag, Hval.
Qed.

Lemma reset_from_any_stage_witness :
  exists w',
    App.step (Sample.after Sample.completed_job) App.Reset = Some w'
    /\ App.st w' = App.initial.
Proof.
  destruct (reset_from_any_stage (Sample.after Sample.completed_job))
    as (w' & Hstep & Hst & _).
  - apply (sample_settled Sample.completed_job). vm_compute; reflexivity.
  - exists w'. split; [exact Hstep | exact Hst].
Defined.

(** ** A job that only the stream reports on *)

Section StreamDriven.

Import App.

Lemma stream_job_step (n : nat) (w : Runtime) (e : Event) :
  settled w -> stream_job n w -> stream_driven e ->
  exists w', step w e = Some w' /\ stream_job n w'.
Proof.
  intros Hw (Hp & Hv & Hon & Hcase) He.
  assert (step w e = Some (commit (handle w e))
          /\ stream_connected (stream (handle w e)) = true) as [Hstep Hon'].
  { assert (stream_connected (stream (handle w e)) = true) as Hon'.
    { destruct e as [result auto|k r| |k r|k r|h|]; cbn [handle]; try done.
      - destruct (validates w !! k); [|done]. by destruct r.
      - by destruct (interval w).
      - by rewrite Hp, lookup_nil.
      - destruct (aggregates w !! k); [|done]. by destruct r. }
    split; [|done]. unfold step. by rewrite (renders_connected _ Hon'). }
  exists (commit (handle w e)). split; [done|].
  assert (handle w e = w \/
          (exists h, e = StreamChanged h /\ stream_connected h = true) \/
          (exists k a j, e = AggregateSettled k (Resolved a) /\ aggregates w !! k = Some j))
    as [Hsame | [(h & -> & Hh) | (k & a & j & -> & Hk)]].
  { destruct e as [result auto|k r| |k r|k r|h|]; cbn [handle]; try done.
    - left. by rewrite Hv, lookup_nil.
    - left. destruct (interval w) as [i|] eqn:Hi; [|done].
      apply (settled_interval_Some w i Hw) in Hi as (_ & _ & _ & Hoff). congruence.
    - left. by rewrite Hp, lookup_nil.
    - destruct r as [a|d]; [|done].
      destruct (aggregates w !! k) as [j|] eqn:Hk; [|by left].
      right; right. by exists k, a, j.
    - right; left. by exists h. }
  - rewrite Hsame, (commit_id _ Hw). by repeat split.
  - (* the hook changes *)
    cbn [handle] in *.
    destruct (commit_frame (with_stream h w)) as (Hs & Hval & _ & _ & _ & _ & Hpolls).
    unfold stream_job. rewrite Hs, Hval, (Hpolls Hh). cbn [stream with_stream polls validates].
    split; [done|]. split; [done|]. split; [done|].
    destruct Hw as (Hd & Hc & Hi).
    destruct Hcase as [(Hstage & Hag & Hn) | (Hstage & Hn)].
    + destruct (decide (stream_status h = completed)) as [Hdone|Hnot];
        [destruct (decide (stream_status h = stream_status (stream w))) as [Hsame|Hnew]|].
      * destruct (commit_idle (with_stream h w)) as (-> & -> & ->); [|by left].
        intros [(Hne & _) _]. cbn in Hne. congruence.
      * destruct (jobId (st w)) as [j|] eqn:Hj;
          [destruct (decide (j = "")) as [->|Hne]|].
        -- destruct (commit_idle (with_stream h w)) as (-> & -> & ->); [|by left].
           intros [_ Hf]. cbn in Hf. by rewrite Hj in Hf.
        -- destruct (commit_calls_aggregate (with_stream h w) j) as (-> & _ & -> & _);
             try done.
           ++ unfold completion_fires. cbn. by rewrite Hc.
           ++ right. split; [done|]. by rewrite <- Hn.
        -- destruct (commit_idle (with_stream h w)) as (-> & -> & ->); [|by left].
           intros [_ Hf]. cbn in Hf. by rewrite Hj in Hf.
      * destruct (commit_idle (with_stream h w)) as (-> & -> & ->); [|by left].
        intros [(_ & Hs' & _) _]. by cbn in Hs'.
    + destruct (commit_idle (with_stream h w)) as (-> & -> & _); [|by right].
      intros [(_ & _ & Hv') _]. by cbn in Hv'.
  - (* [aggregate] resolves *)
    cbn [handle] in *. rewrite Hk in *.
    destruct Hcase as [(_ & Hag & _) | (Hstage & Hn)];
      [by rewrite Hag, lookup_nil in Hk|].
    set (w1 := aggregate_settled (Resolved a) (with_aggregates (delete k (aggregates w)) w)) in *.
    destruct (commit_frame w1) as (Hs & Hval & _ & _ & _ & _ & Hpolls).
    destruct (commit_idle w1) as (Hst & Hcalls & _).
    { intros [(_ & _ & Hv') _]. discriminate Hv'. }
    unfold stream_job. rewrite Hs, Hval, (Hpolls Hon'), Hst, Hcalls.
    split; [exact Hp|]. split; [exact Hv|]. split; [exact Hon'|].
    right. split; [discriminate | exact Hn].
Qed.

Lemma stream_job_run (n : nat) (es : list Event) (w : Runtime) :
  settled w -> stream_job n w -> Forall stream_driven es ->
  exists w', run w es = Some w' /\ stream_job n w'.
Proof.
  revert w. induction es as [|e es IH]; intros w Hw Hjob Hes; cbn [run].
  - by exists w.
  - apply Forall_cons in Hes as [He Hes].
    destruct (stream_job_step n w e Hw Hjob He) as (w1 & Hstep & Hjob1).
    rewrite Hstep. apply IH; [|done|done]. by eapply step_settled.
Qed.

End StreamDriven.

(** X8. A job that only the stream reports on is aggregated at most once.
    From stage [validating] with the stream connected and no request in
    flight, and as long as the hook stays connected and nothing restarts the
    job (no ingest, no reset, no rejected [aggregate]), no sequence of
    stream changes, ticks and answers makes a render throw or calls
    [aggregate] a second time. *)
Theorem stream_only_job_aggregates_at_most_once
    (w : App.Runtime) (es : list App.Event) :
  App.settled w ->
  App.stage (App.st w) = App.validating ->
  App.stream_connected (App.stream w) = true ->
  App.polls w = [] -> App.validates w = [] -> App.aggregates w = [] ->
  Forall App.stream_driven es ->
  exists w',
    App.run w es = Some w'
    /\ (App.aggregate_calls w' <= S (App.aggregate_calls w))%nat
    /\ (App.aggregate_calls w' = S (App.aggregate_calls w) <->
        App.stage (App.st w') <> App.validating).
Proof.
  intros Hw Hstage Hon Hp Hv Ha Hes.
  destruct (stream_job_run (App.aggregate_calls w) es w) as (w' & Hrun & Hjob);
    [done| |done|].
  { split; [done|]. split; [done|]. split; [done|]. by left. }
  exists w'. split; [done|].
  destruct Hjob as (_ & _ & _ & [(Hs & _ & ->) | (Hs & ->)]).
  - split; [lia|]. split; [lia | congruence].
  - split; [lia|]. split; done.
Qed.

Lemma stream_only_job_aggregates_at_most_once_witness :
  exists w',
    App.run (Sample.after (Sample.connected_job ++ [App.PollSettled 0 (Rejected None)]))
      [ App.StreamChanged Sample.stream_done; App.StreamChanged Sample.stream_on;
        App.StreamChanged Sample.stream_done; App.Tick ] = Some w'
    /\ (App.aggregate_calls w' <= 1)%nat.
Proof.
  destruct (stream_only_job_aggregates_at_most_once
              (Sample.after (Sample.connected_job ++ [App.PollSettled 0 (Rejected None)]))
              [ App.StreamChanged Sample.stream_done; App.StreamChanged Sample.stream_on;
                App.StreamChanged Sample.stream_done; App.Tick ])
    as (w' & Hrun & Hle & _).
  - apply (sample_settled (Sample.connected_job ++ [App.PollSettled 0 (Rejected None)])).
    vm_compute; reflexivity.
  - vm_compute; reflexivity.
  - vm_compute; reflexivity.
  - vm_compute; reflexivity.
  - vm_compute; reflexivity.
  - vm_compute; reflexivity.
  - repeat constructor.
  - exists w'. split; [exact Hrun|]. exact Hle.
Defined.

(** ** What the table of claims shows *)

Section Table.

Lemma count_by_claim (rs : list MinerResponse) (cids : list string) :
  NoDup cids ->
  sum_list_with (fun cid => length (responses_for cid rs)) cids
  = length (filter (fun r => claim_id r ∈ cids) rs).
Proof.
  intros Hnd. induction rs as [|r rs IH].
  - cbn. induction cids as [|c cids IHc]; [done|].
    cbn. apply IHc. by apply NoDup_cons in Hnd as [_ ?].
  - rewrite filter_cons.
    assert (sum_list_with (fun cid => length (responses_for cid (r :: rs))) cids
            = ((if decide (claim_id r ∈ cids) then 1 else 0)
               + sum_list_with (fun cid => length (responses_for cid rs)) cids)%nat) as ->.
    { clear IH. induction cids as [|c cids IHc]; [done|].
      apply NoDup_cons in Hnd as [Hc Hnd]. cbn [sum_list_with].
      rewrite (IHc Hnd). unfold responses_for at 1. rewrite filter_cons.
      fold (responses_for c rs).
      destruct (decide (claim_id r = c)) as [Heq|Hne].
      - subst c.
        destruct (decide (claim_id r ∈ claim_id r :: cids)) as [_|Hn];
          [|exfalso; apply Hn; left].
        destruct (decide (claim_id r ∈ cids)) as [Hin|_]; [done|]. cbn. lia.
      - destruct (decide (claim_id r ∈ c :: cids)) as [Hin|Hnin],
          (decide (claim_id r ∈ cids)) as [Hin'|Hnin']; try lia.
        + apply elem_of_cons in Hin as [?|?]; congruence.
        + exfalso. apply Hnin. by right. }
    rewrite IH. by destruct (decide (claim_id r ∈ cids)).
Qed.

End Table.

(** X9. While the stream is not connected, the miner count of a row is the
    number of responses of the latest poll snapshot that carry the claim's
    id, repeated entries included; over rows with distinct claim ids the
    counts add up to the number of responses for those claims, so that no
    response is counted under two rows. *)
Theorem miner_counts_partition_snapshot
    (s : App.State) (h : App.Stream) (view : gmap string (list MinerResponse))
    (cids : list string) :
  App.stream_connected h = false ->
  App.minerResponses s h = Some view ->
  NoDup cids ->
  (forall cid,
      ClaimsTable.minerCount view cid
      = length (responses_for cid (App.polledResponses s)))
  /\ sum_list_with (ClaimsTable.minerCount view) cids
     = length (filter (fun r => claim_id r ∈ cids) (App.polledResponses s))
  /\ (sum_list_with (ClaimsTable.minerCount view) cids
      <= length (App.polledResponses s))%nat.
Proof.
  intros Hoff Hview Hnd. unfold App.minerResponses in Hview. rewrite Hoff in Hview.
  assert (forall cid, ClaimsTable.minerCount view cid
                      = length (responses_for cid (App.polledResponses s))) as Hcount.
  { intros cid. unfold ClaimsTable.minerCount.
    rewrite (group_by_claim_lookup _ _ cid Hview).
    by destruct (responses_for cid _). }
  split; [done|].
  assert (sum_list_with (ClaimsTable.minerCount view) cids
          = sum_list_with (fun cid => length (responses_for cid (App.polledResponses s))) cids)
    as ->.
  { clear Hnd. induction cids as [|c cids IH]; [done|].
    cbn [sum_list_with]. by rewrite IH, Hcount. }
  rewrite (count_by_claim _ _ Hnd). split; [done|]. apply length_filter.
Qed.

Lemma miner_counts_partition_snapshot_witness :
  ClaimsTable.minerCount
    {[ "claim-2" := [Sample.response24; Sample.response24] ]} "claim-2" = 2%nat.
Proof.
  destruct (miner_counts_partition_snapshot
              (App.setPolledResponses [Sample.response24; Sample.response24] App.initial)
              Sample.stream_off
              {[ "claim-2" := [Sample.response24; Sample.response24] ]}
              ["claim-1"; "claim-2"]) as (Hcount & _).
  - reflexivity.
  - vm_compute; reflexivity.
  - apply NoDup_cons. split; [|apply NoDup_singleton].
    intros Hin%list_elem_of_singleton. discriminate Hin.
  - rewrite (Hcount "claim-2"). vm_compute; reflexivity.
Defined.

(** X10. The render of [App] throws exactly when the stream is not connected
    and some polled response has a claim id that is a property name of
    [Object.prototype] (such as "constructor" or "toString"): the grouping
    by claim id then calls [push] on something that is not an array. With
    the stream connected, or with no such claim id, the view is defined. *)
Theorem render_throws_iff_prototype_key (s : App.State) (h : App.Stream) :
  App.minerResponses s h = None <->
  App.stream_connected h = false
  /\ Exists (fun r => claim_id r ∈ object_prototype_keys) (App.polledResponses s).
Proof.
  unfold App.minerResponses. destruct (App.stream_connected h).
  - split; [done | by intros [? _]].
  - unfold group_by_claim. split.
    + intros Hnone. split; [done|].
      destruct (decide (Forall (fun r => claim_id r ∉ object_prototype_keys)
                          (App.polledResponses s))) as [Hall|Hnot].
      * apply (group_from_is_Some ∅) in Hall as [m Hm]. congruence.
      * apply not_Forall_Exists in Hnot; [|apply _].
        eapply Exists_impl; [exact Hnot|]. intros r Hr. cbn in Hr.
        by destruct (decide (claim_id r ∈ object_prototype_keys)).
    + intros [_ Hex].
      destruct (group_from ∅ (App.polledResponses s)) as [m|] eqn:Hm; [|done].
      exfalso. assert (is_Some (group_from ∅ (App.polledResponses s))) as Hsome by eauto.
      apply group_from_is_Some in Hsome.
      apply Exists_exists in Hex as (r & Hin & Hr).
      rewrite Forall_forall in Hsome. by apply (Hsome r Hin).
Qed.

(** X11. [getClaimStatuses] has an entry exactly for the ids of the claims of
    the stored proposal, and none without a proposal: for the rows that the
    table renders, the fallback ['pending'] of [claimStatuses.get(id) ||
    'pending'] is never what decides the status. *)
Theorem claim_statuses_cover_the_proposal
    (s : App.State) (view : gmap string (list MinerResponse)) (cid : string) :
  (is_Some (App.getClaimStatuses s view !! cid) <->
   exists p c, App.proposal s = Some p /\ c ∈ IngestResponse.claims p /\ Claim.id c = cid)
  /\ (forall p c,
        App.proposal s = Some p -> c ∈ IngestResponse.claims p ->
        App.getClaimStatuses s view !! Claim.id c
        = Some (ClaimsTable.row_status (App.getClaimStatuses s view) (Claim.id c))).
Proof.
  split.
  - rewrite getClaimStatuses_lookup. destruct (App.proposal s) as [p|].
    + destruct (decide (cid ∈ Claim.id <$> IngestResponse.claims p)) as [Hin|Hnin].
      * split; [|by eauto]. intros _.
        apply list_elem_of_fmap in Hin as (c & -> & Hc). by exists p, c.
      * split; [by intros [? [=]]|]. intros (p' & c & [= <-] & Hc & <-).
        exfalso. apply Hnin. apply list_elem_of_fmap. by exists c.
    + split; [by intros [? [=]]|]. by intros (? & ? & [=] & _).
  - intros p c Hp Hc. unfold ClaimsTable.row_status.
    rewrite getClaimStatuses_lookup, Hp.
    by rewrite decide_True by (apply list_elem_of_fmap; eauto).
Qed.

Lemma claim_statuses_cover_the_proposal_witness :
  is_Some (App.getClaimStatuses (App.setProposal (Some Sample.ingested) App.initial) ∅
             !! "claim-1").
Proof.
  apply (claim_statuses_cover_the_proposal
           (App.setProposal (Some Sample.ingested) App.initial) ∅ "claim-1").
  exists Sample.ingested, Sample.claim1. split; [reflexivity|]. split; [by left|reflexivity].
Defined.

(** ** The dashboard between jobs *)

Section Dashboard.

Import LiveDashboard.

Lemma rerender_settled (job : string) (d : Runtime) :
  settled d -> settled (rerender job d).
Proof.
  intros [Hd Hi]. unfold rerender, poll_effect. cbn.
  case_decide as Heq.
  - split; [done|]. cbn. rewrite Hi. rewrite Hd in Heq. congruence.
  - destruct (polling (st d)) eqn:Hp; unfold settled; cbn; by rewrite Hp.
Qed.

Lemma feed_settled (d : Runtime) (i : Input) : settled d -> settled (feed d i).
Proof.
  destruct i as [e|job]; cbn [feed];
    [apply dashboard_step_settled | apply rerender_settled].
Qed.

(** With [polling] off, nothing the dashboard receives sends a request or
    sets [polling] again. *)
Lemma feed_stopped (d : Runtime) (i : Input) :
  settled d -> polling (st d) = false ->
  polling (st (feed d i)) = false /\ calls (feed d i) = calls d.
Proof.
  intros [Hd Hi] Hp. rewrite Hp in Hi.
  destruct i as [[|r]|job]; cbn [feed].
  - unfold step, poll_effect. cbn [handle]. rewrite Hi.
    by rewrite decide_True by (by rewrite Hd).
  - unfold step, poll_effect. cbn [handle].
    destruct (polls d) as [|n].
    + by rewrite decide_True by (by rewrite Hd).
    + cbn.
      assert (polling (poll_settled r (st d)) = false) as Hp'.
      { destruct r as [result|message]; cbn; [|done]. rewrite Hp. by destruct (_ || _). }
      rewrite Hp'. by case_decide.
  - unfold rerender, poll_effect. cbn. rewrite Hp. by case_decide.
Qed.

Lemma run_stopped (inputs : list Input) (d : Runtime) :
  settled d -> polling (st d) = false ->
  polling (st (foldl feed d inputs)) = false
  /\ calls (foldl feed d inputs) = calls d
  /\ interval (foldl feed d inputs) = false.
Proof.
  revert d. induction inputs as [|i inputs IH]; intros d Hs Hp; cbn [foldl].
  - destruct Hs as [_ Hi]. by rewrite Hi, Hp.
  - destruct (feed_stopped d i Hs Hp) as [Hp' Hc'].
    destruct (IH (feed d i) (feed_settled d i Hs) Hp') as (-> & -> & ->). by rewrite Hc'.
Qed.

End Dashboard.

(** X12. In [LiveDashboard] an answer to [getStatus] is stored as the status
    shown, whatever the job it was asked for; if it reports the job
    completed or failed, polling stops for good: the interval is cleared
    and a tick sends nothing; if it reports queued or running, the loop goes
    on as it was. *)
Theorem dashboard_stops_on_terminal_status
    (d : LiveDashboard.Runtime) (r : StatusResponse.t) :
  LiveDashboard.settled d -> (0 < LiveDashboard.polls d)%nat ->
  let d' := LiveDashboard.step d (LiveDashboard.PollSettled (Resolved r)) in
  LiveDashboard.status (LiveDashboard.st d') = Some r
  /\ LiveDashboard.error (LiveDashboard.st d') = LiveDashboard.error (LiveDashboard.st d)
  /\ LiveDashboard.calls d' = LiveDashboard.calls d
  /\ (StatusResponse.status r = completed \/ StatusResponse.status r = failed ->
      LiveDashboard.polling (LiveDashboard.st d') = false
      /\ LiveDashboard.interval d' = false
      /\ LiveDashboard.step d' LiveDashboard.Tick = d')
  /\ (StatusResponse.status r = queued \/ StatusResponse.status r = running ->
      LiveDashboard.polling (LiveDashboard.st d') = LiveDashboard.polling (LiveDashboard.st d)
      /\ LiveDashboard.interval d' = LiveDashboard.interval d).
Proof.
  intros Hs Hp d'.
  pose proof (dashboard_step_settled d (LiveDashboard.PollSettled (Resolved r)) Hs)
    as [Hd' Hi'].
  fold d' in Hd', Hi'.
  assert (LiveDashboard.st d'
          = LiveDashboard.poll_settled (Resolved r) (LiveDashboard.st d)
          /\ LiveDashboard.calls d' = LiveDashboard.calls d) as [Hst Hcalls].
  { unfold d', LiveDashboard.step, LiveDashboard.poll_effect.
    cbn [LiveDashboard.handle].
    destruct (LiveDashboard.polls d) as [|n]; [lia|].
    case_decide as Heq; [done|]. cbn in Heq. cbn.
    destruct (bool_decide (StatusResponse.status r = completed)
              || bool_decide (StatusResponse.status r = failed)); [done|].
    destruct Hs as [Hd _]. by rewrite Hd in Heq. }
  split; [by rewrite Hst|]. split; [by rewrite Hst|]. split; [done|].
  split.
  - intros Hterm.
    assert (LiveDashboard.polling (LiveDashboard.st d') = false) as Hpolling.
    { rewrite Hst. cbn. by destruct Hterm as [-> | ->]. }
    split; [done|]. split; [by rewrite Hi'|].
    unfold LiveDashboard.step, LiveDashboard.poll_effect. cbn [LiveDashboard.handle].
    rewrite Hi', Hpolling. rewrite Hd', Hpolling. by rewrite decide_True.
  - intros Hlive.
    assert (LiveDashboard.polling (LiveDashboard.st d')
            = LiveDashboard.polling (LiveDashboard.st d)) as Hpolling.
    { rewrite Hst. cbn. by destruct Hlive as [-> | ->]. }
    split; [done|]. destruct Hs as [_ Hi]. by rewrite Hi', Hi.
Qed.

Lemma dashboard_stops_on_terminal_status_witness :
  LiveDashboard.interval
    (LiveDashboard.step (LiveDashboard.mount "job-1")
       (LiveDashboard.PollSettled (Resolved (Sample.snapshot failed [])))) = false.
Proof.
  destruct (dashboard_stops_on_terminal_status (LiveDashboard.mount "job-1")
              (Sample.snapshot failed [])) as (_ & _ & _ & Hterm & _).
  - split; reflexivity.
  - cbn. lia.
  - destruct Hterm as (_ & Hi & _); [by right | exact Hi].
Defined.

(** X13. A dashboard that has stopped polling never polls again: with
    [polling] off, no tick, no late answer and no new job id passed by the
    parent sends a [getStatus], since nothing sets [polling] back. A job
    validated after the first one has finished or failed is therefore not
    followed. *)
Theorem dashboard_never_restarts
    (d : LiveDashboard.Runtime) (inputs : list LiveDashboard.Input) :
  LiveDashboard.settled d ->
  LiveDashboard.polling (LiveDashboard.st d) = false ->
  LiveDashboard.polling (LiveDashboard.st (foldl LiveDashboard.feed d inputs)) = false
  /\ LiveDashboard.calls (foldl LiveDashboard.feed d inputs) = LiveDashboard.calls d
  /\ LiveDashboard.interval (foldl LiveDashboard.feed d inputs) = false.
Proof. apply run_stopped. Qed.

Lemma dashboard_never_restarts_witness :
  LiveDashboard.calls
    (foldl LiveDashboard.feed
       (LiveDashboard.step (LiveDashboard.mount "job-1")
          (LiveDashboard.PollSettled (Resolved (Sample.snapshot completed []))))
       [ LiveDashboard.NewJob "job-2"; LiveDashboard.Dispatch LiveDashboard.Tick ])
  = 1%nat.
Proof.
  destruct (dashboard_never_restarts
              (LiveDashboard.step (LiveDashboard.mount "job-1")
                 (LiveDashboard.PollSettled (Resolved (Sample.snapshot completed []))))
              [ LiveDashboard.NewJob "job-2"; LiveDashboard.Dispatch LiveDashboard.Tick ])
    as (_ & Hcalls & _).
  - split; reflexivity.
  - reflexivity.
  - exact Hcalls.
Defined.

(** ** What the evidence panel shows *)

Section Panel.

Import EvidencePanel.

Lemma feed_shown (cid : option string) (w : Runtime) (i : Input) :
  consistent w ->
  ipfsCid (st w) = match attestation (st w) with
                   | Some a => AttestResponse.ipfs_cid a
                   | None => cid
                   end ->
  (attesting (st w) = true \/ is_Some (attestation (st w)) -> error (st w) = None) ->
  ipfsCid (st (feed w i)) = match attestation (st (feed w i)) with
                            | Some a => AttestResponse.ipfs_cid a
                            | None => cid
                            end
  /\ (attesting (st (feed w i)) = true \/ is_Some (attestation (st (feed w i))) ->
      error (st (feed w i)) = None).
Proof.
  intros (Hf & Ha & Hx) Hcid Herr. destruct i as [[| |r]|p]; cbn [feed step].
  - done.
  - destruct (attest_disabled (st w)); [done|]. cbn. done.
  - destruct (in_flight w) as [|j rest] eqn:Hn; [done|].
    destruct (attesting (st w)) eqn:Hing; [|discriminate Hf].
    specialize (Hx eq_refl). destruct r as [response|detail]; cbn.
    + split; [done|]. intros _. by apply Herr; left.
    + rewrite Hx in *. split; [done|]. by intros [[=]|[? [=]]].
  - done.
Qed.

End Panel.

(** X14. Whatever the panel receives after it is mounted, renders with other
    props included, the content address it holds is the [ipfsCid] prop of the
    render that mounted it until an attestation is stored, and from then on
    the [ipfs_cid] of that attestation, also when the attestation has none;
    no error is held while a request is out or once an attestation is stored;
    and a render with other props changes the props and no state cell. *)
Theorem panel_cid_of_mount_or_attestation
    (p : EvidencePanel.Props) (inputs : list EvidencePanel.Input) :
  let w := EvidencePanel.run (EvidencePanel.mount p) inputs in
  EvidencePanel.ipfsCid (EvidencePanel.st w)
  = match EvidencePanel.attestation (EvidencePanel.st w) with
    | Some a => AttestResponse.ipfs_cid a
    | None => EvidencePanel.initialCid p
    end
  /\ (EvidencePanel.attesting (EvidencePanel.st w) = true
      \/ is_Some (EvidencePanel.attestation (EvidencePanel.st w)) ->
      EvidencePanel.error (EvidencePanel.st w) = None)
  /\ (forall p',
        EvidencePanel.props (EvidencePanel.feed w (EvidencePanel.Rerender p')) = p'
        /\ EvidencePanel.st (EvidencePanel.feed w (EvidencePanel.Rerender p'))
           = EvidencePanel.st w).
Proof.
  cbn zeta. unfold EvidencePanel.run.
  assert (forall w,
            EvidencePanel.consistent w ->
            EvidencePanel.ipfsCid (EvidencePanel.st w)
            = match EvidencePanel.attestation (EvidencePanel.st w) with
              | Some a => AttestResponse.ipfs_cid a
              | None => EvidencePanel.initialCid p
              end ->
            (EvidencePanel.attesting (EvidencePanel.st w) = true
             \/ is_Some (EvidencePanel.attestation (EvidencePanel.st w)) ->
             EvidencePanel.error (EvidencePanel.st w) = None) ->
            EvidencePanel.ipfsCid (EvidencePanel.st (foldl EvidencePanel.feed w inputs))
            = match EvidencePanel.attestation
                      (EvidencePanel.st (foldl EvidencePanel.feed w inputs)) with
              | Some a => AttestResponse.ipfs_cid a
              | None => EvidencePanel.initialCid p
              end
            /\ (EvidencePanel.attesting (EvidencePanel.st (foldl EvidencePanel.feed w inputs))
                = true
                \/ is_Some (EvidencePanel.attestation
                              (EvidencePanel.st (foldl EvidencePanel.feed w inputs))) ->
                EvidencePanel.error (EvidencePanel.st (foldl EvidencePanel.feed w inputs))
                = None))
    as Hrun.
  { induction inputs as [|i inputs IH]; intros w Hw Hcid Herr; cbn [foldl]; [done|].
    destruct (feed_shown (EvidencePanel.initialCid p) w i Hw Hcid Herr) as [Hcid' Herr'].
    apply IH; [by apply feed_consistent | done | done]. }
  destruct (Hrun (EvidencePanel.mount p)) as [Hcid Herr];
    [apply mount_consistent | done | by intros [[=]|[? [=]]] |].
  split; [exact Hcid|]. split; [exact Herr|]. done.
Qed.

(** The theorem at the panel of job-1 rendered again with another content
    address, before and after its attestation. *)
Lemma panel_cid_of_mount_or_attestation_witness :
  EvidencePanel.ipfsCid
    (EvidencePanel.st
       (EvidencePanel.run (EvidencePanel.mount Sample.panel_props1)
          [ EvidencePanel.Rerender Sample.panel_props2 ]))
  = Some "bafy-evidence"
  /\ EvidencePanel.ipfsCid
       (EvidencePanel.st
          (EvidencePanel.run (EvidencePanel.mount Sample.panel_props2)
             [ EvidencePanel.Dispatch EvidencePanel.ClickAttest;
               EvidencePanel.Rerender Sample.panel_props2;
               EvidencePanel.Dispatch
                 (EvidencePanel.AttestSettled (Resolved Sample.attestation1)) ]))
     = Some "bafy-evidence".
Proof.
  split.
  - destruct (panel_cid_of_mount_or_attestation Sample.panel_props1
                [ EvidencePanel.Rerender Sample.panel_props2 ]) as [Hcid _].
    exact Hcid.
  - destruct (panel_cid_of_mount_or_attestation Sample.panel_props2
                [ EvidencePanel.Dispatch EvidencePanel.ClickAttest;
                  EvidencePanel.Rerender Sample.panel_props2;
                  EvidencePanel.Dispatch
                    (EvidencePanel.AttestSettled (Resolved Sample.attestation1)) ])
      as [Hcid _].
    exact Hcid.
Defined.

(** X20. Whatever one mounted panel receives, renders with other props
    included: at most one [attest] request is out, and while one is out a
    click on the button starts no other; at most one request has resolved,
    and once one has, no click calls [attest] again; and before that, a
    rejected attempt leaves the button enabled, so that any number of calls
    can be made. *)
Theorem attest_once_per_mount
    (p : EvidencePanel.Props) (inputs : list EvidencePanel.Input) :
  let w := EvidencePanel.run (EvidencePanel.mount p) inputs in
  (length (EvidencePanel.in_flight w) <= 1)%nat
  /\ (EvidencePanel.attested w <= 1)%nat
  /\ (length (EvidencePanel.in_flight w) = 1%nat ->
      EvidencePanel.step w EvidencePanel.ClickAttest = w)
  /\ (EvidencePanel.attested w = 1%nat ->
      forall inputs',
        EvidencePanel.calls (EvidencePanel.run w inputs') = EvidencePanel.calls w
        /\ EvidencePanel.attested (EvidencePanel.run w inputs') = 1%nat)
  /\ (forall n,
        EvidencePanel.calls
          (EvidencePanel.run (EvidencePanel.mount p) (EvidencePanel.rejected_attempts n)) = n
        /\ EvidencePanel.attested
          (EvidencePanel.run (EvidencePanel.mount p) (EvidencePanel.rejected_attempts n))
          = 0%nat).
Proof.
  intros w.
  pose proof (run_consistent inputs _ (mount_consistent p)) as Hw. fold w in Hw.
  assert (Hw0 := Hw). destruct Hw0 as (Hf & Ha & Hx).
  split; [rewrite Hf; destruct (EvidencePanel.attesting _); lia|].
  split; [rewrite Ha; destruct (EvidencePanel.attestation _); lia|].
  split; [|split].
  - intros H1. cbn [EvidencePanel.step]. unfold EvidencePanel.attest_disabled.
    destruct (EvidencePanel.attesting (EvidencePanel.st w)); [done|].
    rewrite H1 in Hf. discriminate Hf.
  - intros H1 inputs'.
    destruct (EvidencePanel.attestation (EvidencePanel.st w)) as [a|] eqn:Hat;
      [|rewrite H1 in Ha; discriminate Ha].
    destruct (attested_is_final inputs' w a Hw Hat) as (-> & -> & _). done.
  - intros n.
    destruct (rejected_attempts_calls n (EvidencePanel.mount p)) as [-> ->]; done.
Qed.

(** The theorem at a panel that was clicked once, got its attestation, was
    rendered again and clicked twice more. *)
Lemma attest_once_per_mount_witness :
  EvidencePanel.calls
    (EvidencePanel.run (EvidencePanel.mount Sample.panel_props1)
       [ EvidencePanel.Dispatch EvidencePanel.ClickAttest;
         EvidencePanel.Dispatch (EvidencePanel.AttestSettled (Resolved Sample.attestation1));
         EvidencePanel.Dispatch EvidencePanel.ClickAttest;
         EvidencePanel.Rerender Sample.panel_props2;
         EvidencePanel.Dispatch EvidencePanel.ClickAttest ]) = 1%nat.
Proof.
  destruct (attest_once_per_mount Sample.panel_props1
              [ EvidencePanel.Dispatch EvidencePanel.ClickAttest;
                EvidencePanel.Dispatch
                  (EvidencePanel.AttestSettled (Resolved Sample.attestation1)) ])
    as (_ & _ & _ & Hfinal & _).
  destruct (Hfinal eq_refl
              [ EvidencePanel.Dispatch EvidencePanel.ClickAttest;
                EvidencePanel.Rerender Sample.panel_props2;
                EvidencePanel.Dispatch EvidencePanel.ClickAttest ])
    as [Hcalls _].
  exact Hcalls.
Defined.

(** ** The panel inside the page *)

Section PageSteps.

Import Page.

Lemma mount_coherent (h : App.Stream) : coherent (mount h).
Proof. split; [done|]. intros pw [=]. Qed.

Lemma step_coherent (w w' : Runtime) (e : Event) :
  coherent w -> step w e = Some w' -> coherent w'.
Proof.
  intros Hw Hstep. assert (Hw0 := Hw). destruct Hw0 as [Hp Hc].
  destruct e as [e|e|k r]; cbn [step] in Hstep.
  - destruct (App.step (app w) e) as [a|]; [|done].
    injection Hstep as <-. unfold reconcile, Page.coherent.
    destruct (panel_props (App.st a)) as [p|] eqn:Ha; cbn; rewrite Ha.
    + split; [by destruct (panel w)|].
      intros pw [= <-]. destruct (panel w) as [pw0|] eqn:Hpw.
      * by apply (feed_consistent pw0 (EvidencePanel.Rerender p)), Hc.
      * apply mount_consistent.
    + split; [done|]. intros pw [=].
  - destruct (panel w) as [pw|] eqn:Hpw.
    + injection Hstep as <-. unfold Page.coherent. cbn.
      split.
      * cbn in Hp. rewrite <- Hp. f_equal.
        destruct e as [| |r]; cbn; [done| |].
        -- by destruct (EvidencePanel.attest_disabled _).
        -- by destruct (EvidencePanel.in_flight pw).
      * intros pw' [= <-]. by apply step_consistent, Hc.
    + injection Hstep as <-. exact Hw.
  - destruct (orphans w !! k); injection Hstep as <-; exact Hw.
Qed.

Lemma run_coherent (es : list Event) (w w' : Runtime) :
  Page.coherent w -> run w es = Some w' -> Page.coherent w'.
Proof.
  revert w. induction es as [|e es IH]; intros w Hw; cbn [run].
  - by intros [= <-].
  - destruct (step w e) as [w1|] eqn:Hstep; [|done].
    apply IH. by apply (step_coherent w w1 e).
Qed.

End PageSteps.

(** X21. Whatever [App] and the panel receive after the mount: the panel is
    mounted exactly when the stage is [complete] with a bundle; a mounted
    panel has the job id, the bundle and the content address of [App]'s state
    as props, at most one request in flight and at most one that resolved. *)
Theorem panel_mounted_while_complete
    (h : App.Stream) (es : list Page.Event) (w : Page.Runtime) :
  Page.run (Page.mount h) es = Some w ->
  (is_Some (Page.panel w) <->
   App.stage (App.st (Page.app w)) = App.complete
   /\ is_Some (App.evidenceBundle (App.st (Page.app w))))
  /\ (forall pw,
        Page.panel w = Some pw ->
        EvidencePanel.jobId (EvidencePanel.props pw) = App.jobId (App.st (Page.app w))
        /\ Some (EvidencePanel.bundle (EvidencePanel.props pw))
           = App.evidenceBundle (App.st (Page.app w))
        /\ EvidencePanel.initialCid (EvidencePanel.props pw)
           = App.ipfsCid (App.st (Page.app w))
        /\ (length (EvidencePanel.in_flight pw) <= 1)%nat
        /\ (EvidencePanel.attested pw <= 1)%nat).
Proof.
  intros Hrun.
  destruct (run_coherent es _ _ (mount_coherent h) Hrun) as [Hp Hc].
  unfold Page.panel_props in Hp.
  split.
  - destruct (Page.panel w) as [pw|]; cbn in Hp.
    + destruct (App.stage (App.st (Page.app w))); try discriminate Hp.
      destruct (App.evidenceBundle (App.st (Page.app w))); [|discriminate Hp].
      split; [by eauto|by eauto].
    + split; [by intros [? [=]]|]. intros [Hs [b Hb]]. rewrite Hs, Hb in Hp.
      discriminate Hp.
  - intros pw Hpw. rewrite Hpw in Hp. cbn in Hp.
    destruct (App.stage (App.st (Page.app w))); try discriminate Hp.
    destruct (App.evidenceBundle (App.st (Page.app w))) as [b|]; [|discriminate Hp].
    injection Hp as ->. cbn.
    split; [done|]. split; [done|]. split; [done|].
    destruct (Hc pw Hpw) as (Hf & Ha & _). rewrite Hf, Ha.
    split; [destruct (EvidencePanel.attesting _); lia|].
    destruct (EvidencePanel.attestation _); lia.
Qed.

(** The theorem at the sample job, completed and attested. *)
Lemma panel_mounted_while_complete_witness :
  is_Some (Page.panel (Sample.page_after Sample.attested_job))
  /\ forall pw,
      Page.panel (Sample.page_after Sample.attested_job) = Some pw ->
      EvidencePanel.jobId (EvidencePanel.props pw) = Some "job-1".
Proof.
  destruct (panel_mounted_while_complete Sample.stream_off Sample.attested_job
              (Sample.page_after Sample.attested_job)) as [Hiff Hprops].
  - vm_compute; reflexivity.
  - split.
    + apply Hiff. split; [vm_compute; reflexivity|]. vm_compute. by eauto.
    + intros pw Hpw. destruct (Hprops pw Hpw) as (-> & _). vm_compute; reflexivity.
Defined.

(** ** Shortened identifiers *)

Section Strings.

Import Display.

Lemma append_cons (c : Ascii.ascii) (a b : string) :
  String.append (String c a) b = String c (String.append a b).
Proof. reflexivity. Qed.

Lemma append_empty (b : string) : String.append EmptyString b = b.
Proof. reflexivity. Qed.

Lemma length_append (a b : string) :
  String.length (String.append a b) = (String.length a + String.length b)%nat.
Proof.
  induction a as [|c a IH]; [done|].
  rewrite append_cons. cbn [String.length]. by rewrite IH.
Qed.

Lemma length_substring_0 (n : nat) (s : string) :
  String.length (String.substring 0 n s) = Nat.min n (String.length s).
Proof.
  revert n. induction s as [|c s IH]; intros [|n]; cbn; try done.
  by rewrite IH.
Qed.

Lemma substring_0_all (n : nat) (s : string) :
  (String.length s <= n)%nat -> String.substring 0 n s = s.
Proof.
  revert n. induction s as [|c s IH]; intros [|n] Hn; cbn in *; try done; try lia.
  rewrite IH; [done | lia].
Qed.

Lemma length_substring (n m : nat) (s : string) :
  (n + m <= String.length s)%nat -> String.length (String.substring n m s) = m.
Proof.
  revert n. induction s as [|c s IH]; intros n Hn; cbn in Hn.
  - assert (n = 0 /\ m = 0)%nat as [-> ->] by lia. done.
  - destruct n as [|n].
    + rewrite length_substring_0. cbn. lia.
    + cbn. apply IH. lia.
Qed.

Lemma length_slice_last (n : nat) (s : string) :
  String.length (slice_last n s) = Nat.min n (String.length s).
Proof.
  unfold slice_last. destruct (decide (n <= String.length s)%nat) as [Hle|Hgt].
  - rewrite length_substring; lia.
  - replace (String.length s - n)%nat with 0%nat by lia.
    rewrite length_substring_0. lia.
Qed.

(** Cutting a string in two and gluing the halves gives it back. *)
Lemma substring_split (n : nat) (s : string) :
  (n <= String.length s)%nat ->
  String.append (String.substring 0 n s)
                (String.substring n (String.length s - n) s) = s.
Proof.
  revert n. induction s as [|c s IH]; intros n Hn; cbn in Hn.
  - by assert (n = 0)%nat as -> by lia.
  - destruct n as [|n].
    + change (String.substring 0 0 (String c s)) with EmptyString.
      rewrite append_empty. apply substring_0_all. lia.
    + change (String.substring 0 (S n) (String c s))
        with (String c (String.substring 0 n s)).
      change (String.substring (S n) (String.length (String c s) - S n) (String c s))
        with (String.substring n (String.length s - n) s).
      rewrite append_cons, IH; [done | lia].
Qed.

(** The last [k] code units are what is left after the first [length - k]. *)
Lemma substring_split_last (k : nat) (s : string) :
  (k <= String.length s)%nat ->
  String.append (String.substring 0 (String.length s - k) s) (slice_last k s) = s.
Proof.
  intros Hk. unfold slice_last.
  pose proof (substring_split (String.length s - k) s) as Hsplit.
  replace (String.length s - (String.length s - k))%nat with k in Hsplit by lia.
  apply Hsplit. lia.
Qed.

Lemma substring_0_append (n : nat) (a b : string) :
  (n <= String.length a)%nat ->
  String.substring 0 n (String.append a b) = String.substring 0 n a.
Proof.
  revert n. induction a as [|c a IH]; intros n Hn; cbn in Hn.
  - assert (n = 0)%nat as -> by lia. rewrite append_empty. by destruct b.
  - rewrite append_cons. destruct n as [|n]; [done|].
    cbn [String.substring]. rewrite IH; [done | lia].
Qed.

Lemma prefix_append (p rest : string) : String.prefix p (String.append p rest) = true.
Proof.
  induction p as [|c p IH]; [by destruct rest|].
  rewrite append_cons. cbn [String.prefix].
  destruct (Ascii.ascii_dec c c); [done|congruence].
Qed.

Lemma substring_append_drop (p rest : string) :
  String.substring (String.length p)
    (String.length (String.append p rest) - String.length p) (String.append p rest) = rest.
Proof.
  induction p as [|c p IH].
  - rewrite append_empty. cbn [String.length]. rewrite Nat.sub_0_r.
    apply substring_0_all. lia.
  - rewrite append_cons. cbn [String.length String.substring Nat.sub]. exact IH.
Qed.

End Strings.

(** X15. The content address on the panel is never longer than 40 code units:
    an address of at most 40 is shown whole, a longer one as its first 20
    code units, three dots and its last 12, which is 35 code units and still
    begins and ends as the address does. *)
Theorem shown_cid_bounded (cid : string) :
  (String.length (Display.shown_cid cid) <= 40)%nat
  /\ ((String.length cid <= 40)%nat -> Display.shown_cid cid = cid)
  /\ ((40 < String.length cid)%nat ->
      String.length (Display.shown_cid cid) = 35%nat
      /\ exists first middle last,
          cid = String.append first (String.append middle last)
          /\ String.length first = 20%nat /\ String.length last = 12%nat
          /\ Display.shown_cid cid = String.append first (String.append "..." last)).
Proof.
  unfold Display.shown_cid.
  destruct (Nat.ltb_spec 40 (String.length cid)) as [Hlong|Hshort].
  - assert (String.length (Display.slice_to 20 cid) = 20%nat) as Hfirst.
    { unfold Display.slice_to. rewrite length_substring_0. lia. }
    assert (String.length (Display.slice_last 12 cid) = 12%nat) as Hlast.
    { rewrite length_slice_last. lia. }
    assert (String.length (String.append (Display.slice_to 20 cid)
              (String.append "..." (Display.slice_last 12 cid))) = 35%nat) as Hlen.
    { rewrite !length_append, Hfirst, Hlast. reflexivity. }
    split; [lia|]. split; [lia|]. intros _. split; [done|].
    set (body := String.substring 0 (String.length cid - 12) cid).
    assert (String.append body (Display.slice_last 12 cid) = cid) as Hcid
      by (apply substring_split_last; lia).
    assert (String.length body = String.length cid - 12)%nat as Hbody.
    { unfold body. rewrite length_substring_0. lia. }
    exists (Display.slice_to 20 cid).
    exists (String.substring 20 (String.length body - 20) body).
    exists (Display.slice_last 12 cid).
    split; [|done].
    assert (Display.slice_to 20 cid = String.substring 0 20 body) as ->.
    { unfold Display.slice_to. rewrite <- Hcid at 1.
      apply substring_0_append. lia. }
    rewrite <- Hcid at 1.
    rewrite <- (substring_split 20 body) at 1 by lia.
    clear. generalize (String.substring 0 20 body) as a.
    intros a. induction a as [|c a IH]; [done|].
    rewrite !append_cons. by rewrite IH.
  - split; [lia|]. split; [done|]. lia.
Qed.

Lemma shown_cid_bounded_witness :
  String.length
    (Display.shown_cid "bafybeigdyrzt5sfp7udm7hu76uh7y26nf3efuylqabf3oclgtqy55fbzdi")
  = 35%nat.
Proof.
  destruct (shown_cid_bounded
              "bafybeigdyrzt5sfp7udm7hu76uh7y26nf3efuylqabf3oclgtqy55fbzdi")
    as (_ & _ & Hlong).
  destruct Hlong as [Hlen _]; [cbn; lia | exact Hlen].
Defined.

(** X16. The signature on the panel is its first 16 code units, three dots
    and its last 8, at most 27 code units; unlike the content address it is
    cut without a test of its length, so that a signature of 8 code units
    or fewer is shown twice, once on each side of the dots. *)
Theorem shown_signature_bounded (signature : string) :
  (String.length (Display.shown_signature signature) <= 27)%nat
  /\ ((String.length signature <= 8)%nat ->
      Display.shown_signature signature
      = String.append signature (String.append "..." signature))
  /\ ((16 <= String.length signature)%nat ->
      String.length (Display.shown_signature signature) = 27%nat).
Proof.
  unfold Display.shown_signature.
  assert (String.length (Display.slice_to 16 signature)
          = Nat.min 16 (String.length signature)) as Hfirst
    by apply length_substring_0.
  pose proof (length_slice_last 8 signature) as Hlast.
  split; [|split].
  - rewrite !length_append, Hfirst, Hlast. cbn [String.length]. lia.
  - intros Hshort. unfold Display.slice_to, Display.slice_last.
    replace (String.length signature - 8)%nat with 0%nat by lia.
    by rewrite !substring_0_all by lia.
  - intros Hlong. rewrite !length_append, Hfirst, Hlast. cbn [String.length]. lia.
Qed.

Lemma shown_signature_bounded_witness :
  Display.shown_signature "0x5167" = "0x5167...0x5167".
Proof.
  destruct (shown_signature_bounded "0x5167") as (_ & Hshort & _).
  rewrite Hshort; [reflexivity | cbn; lia].
Defined.

(** X17. The socket address is the API address with its first ["http"]
    replaced by ["ws"]: an [http://] address becomes a [ws://] address with
    the same rest, and an [https://] address a [wss://] one. *)
Theorem ws_base_url_scheme (rest : string) :
  Display.WS_BASE_URL (String.append "http://" rest) = String.append "ws://" rest
  /\ Display.WS_BASE_URL (String.append "https://" rest) = String.append "wss://" rest.
Proof.
  assert (forall tail, Display.WS_BASE_URL (String.append "http" tail)
                       = String.append "ws" tail) as Hhttp.
  { intros tail. unfold Display.WS_BASE_URL.
    assert (forall s, Display.replace_first "http" "ws" s
                      = if String.prefix "http" s
                        then String.append "ws"
                               (String.substring (String.length "http")
                                  (String.length s - String.length "http") s)
                        else match s with
                             | EmptyString => EmptyString
                             | String c s' => String c (Display.replace_first "http" "ws" s')
                             end) as Hunfold by (by intros []).
    rewrite Hunfold, prefix_append. by rewrite substring_append_drop. }
  split.
  - apply (Hhttp (String.append "://" rest)).
  - apply (Hhttp (String.append "s://" rest)).
Qed.

(** ** The proposal form *)

Section Form.

Import ProposalInput.

(** [trimStart] drops a prefix of white space and stops at the first code
    unit that is not. *)
Lemma trimStart_split (s : list N) :
  exists pre,
    s = pre ++ trimStart s
    /\ Forall (fun c => is_white_space c = true) pre
    /\ (forall c t, trimStart s = c :: t -> is_white_space c = false).
Proof.
  induction s as [|c s (pre & Hs & Hpre & Hhead)]; cbn [trimStart].
  - exists []. by repeat split.
  - destruct (is_white_space c) eqn:Hc.
    + exists (c :: pre). split; [by rewrite Hs at 1|]. split; [by constructor|done].
    + exists []. split; [done|]. split; [done|]. by intros c' t [= <- _].
Qed.

Lemma trimStart_fixed (s : list N) :
  (forall c t, s = c :: t -> is_white_space c = false) -> trimStart s = s.
Proof.
  destruct s as [|c t]; [done|]. intros Hc. cbn [trimStart].
  by rewrite (Hc c t eq_refl).
Qed.

Lemma trimStart_nil_iff (s : list N) :
  trimStart s = [] <-> Forall (fun c => is_white_space c = true) s.
Proof.
  induction s as [|c s IH]; cbn [trimStart]; [done|].
  destruct (is_white_space c) eqn:Hc.
  - rewrite IH. split; [by constructor | by intros [_ ?]%Forall_cons].
  - split; [done|]. intros [Hc' _]%Forall_cons. congruence.
Qed.

(** What [trim] returns neither starts nor ends with white space. *)
Lemma trim_ends (s : list N) :
  (forall c t, trim s = c :: t -> is_white_space c = false)
  /\ (forall c t, reverse (trim s) = c :: t -> is_white_space c = false).
Proof.
  unfold trim.
  destruct (trimStart_split s) as (pre1 & _ & _ & Hhead1).
  destruct (trimStart_split (reverse (trimStart s))) as (pre2 & Hs2 & _ & Hhead2).
  set (u := trimStart s) in *. set (v := trimStart (reverse u)) in *.
  split.
  - intros c t Hct.
    assert (u = reverse v ++ reverse pre2) as Hu.
    { rewrite <- reverse_app, <- Hs2. by rewrite reverse_involutive. }
    rewrite Hct in Hu. by apply (Hhead1 c (t ++ reverse pre2)).
  - intros c t. rewrite reverse_involutive. apply Hhead2.
Qed.

Lemma trim_idempotent (s : list N) : trim (trim s) = trim s.
Proof.
  destruct (trim_ends s) as [Hfirst Hlast].
  unfold trim at 1. rewrite (trimStart_fixed (trim s) Hfirst).
  rewrite (trimStart_fixed (reverse (trim s)) Hlast).
  apply reverse_involutive.
Qed.

Lemma trim_nil_iff (s : list N) :
  trim s = [] <-> Forall (fun c => is_white_space c = true) s.
Proof.
  rewrite <- trimStart_nil_iff. unfold trim. split.
  - intros Hnil. apply (f_equal reverse) in Hnil. rewrite reverse_involutive in Hnil.
    cbn in Hnil.
    destruct (trimStart_split (reverse (trimStart s))) as (pre & Hs & Hpre & _).
    rewrite Hnil, app_nil_r in Hs.
    destruct (trimStart_split s) as (_ & _ & _ & Hhead).
    destruct (trimStart s) as [|c t] eqn:Hu; [done|].
    exfalso. rewrite Forall_forall in Hpre.
    assert (is_white_space c = true) as Hc.
    { apply Hpre. rewrite <- Hs. apply elem_of_reverse. by left. }
    by rewrite (Hhead c t eq_refl) in Hc.
  - by intros ->.
Qed.

Lemma request_of_well_formed (s : list N) (q : IngestRequest) :
  request_of s = Some q ->
  well_formed q /\ (url q = Some (trim s) \/ text q = Some (trim s)).
Proof.
  unfold request_of. destruct (trim s) as [|c t] eqn:Ht; [done|].
  intros [= <-].
  assert (trim (c :: t) = c :: t) as Hfix by (rewrite <- Ht; apply trim_idempotent).
  split.
  - exists (c :: t). split; [done|]. split; [done|].
    destruct (startsWith http (c :: t)); [by left | by right].
  - destruct (startsWith http (c :: t)); [by left | by right].
Qed.

Lemma form_step (w : Runtime) (e : Event) :
  ProposalInput.form_invariant w -> ProposalInput.form_invariant (step w e).
Proof.
  intros Hw. assert (Hw0 := Hw). destruct Hw0 as (Hf & Hq & Hc & Hn).
  destruct e as [value| |r]; cbn [step].
  - by destruct (loading (st w)).
  - unfold submit_disabled. destruct (loading (st w)) eqn:Hl; cbn [orb]; [done|].
    case_bool_decide as Hblank; [done|].
    unfold handleSubmit. destruct (request_of (input (st w))) as [q|] eqn:Hreq; [|done].
    destruct (request_of_well_formed _ _ Hreq) as [Hwf _].
    unfold ProposalInput.form_invariant. cbn. rewrite Hf. split; [done|].
    split; [apply Forall_app; split; [done | by constructor]|].
    split; [done|]. rewrite length_app. cbn. lia.
  - destruct (in_flight w) as [|n] eqn:Hin; [done|].
    destruct (loading (st w)) eqn:Hl; [|discriminate Hf].
    injection Hf as ->. unfold ProposalInput.form_invariant. cbn.
    destruct r as [result|detail]; cbn.
    + split; [done|]. split; [done|].
      split; [apply Forall_app; split; [done | by constructor]|].
      rewrite length_app. cbn. lia.
    + split; [done|]. split; [done|]. split; [done|]. lia.
Qed.

End Form.

(** X18. The form sends nothing for an input that is blank (empty or white
    space only); for any other input it sends exactly one of [url] and
    [text], carrying the trimmed input, which is not empty and has no white
    space at either end, as [url] exactly when it starts with ['http'].
    Trimming twice is trimming once. *)
Theorem ingest_request_shape (s : list N) :
  (ProposalInput.request_of s = None <->
   Forall (fun c => ProposalInput.is_white_space c = true) s)
  /\ (forall q,
        ProposalInput.request_of s = Some q ->
        ProposalInput.well_formed q
        /\ (ProposalInput.url q = Some (ProposalInput.trim s)
            /\ ProposalInput.text q = None
            /\ ProposalInput.startsWith ProposalInput.http (ProposalInput.trim s) = true
            \/ ProposalInput.url q = None
               /\ ProposalInput.text q = Some (ProposalInput.trim s)
               /\ ProposalInput.startsWith ProposalInput.http (ProposalInput.trim s) = false))
  /\ ProposalInput.trim (ProposalInput.trim s) = ProposalInput.trim s.
Proof.
  split; [|split; [|apply trim_idempotent]].
  - rewrite <- trim_nil_iff. unfold ProposalInput.request_of.
    by destruct (ProposalInput.trim s).
  - intros q Hq. split; [by apply (request_of_well_formed s)|].
    unfold ProposalInput.request_of in Hq.
    destruct (ProposalInput.trim s) as [|c t]; [done|].
    injection Hq as <-.
    destruct (ProposalInput.startsWith ProposalInput.http (c :: t)); [by left | by right].
Qed.

(** The theorem at the input " https://snapshot.org " (white space on each side). *)
Lemma ingest_request_shape_witness :
  ProposalInput.well_formed
    {| ProposalInput.url := Some [104; 116; 116; 112; 115; 58; 47; 47; 120]%N;
       ProposalInput.text := None |}.
Proof.
  destruct (ingest_request_shape [32; 104; 116; 116; 112; 115; 58; 47; 47; 120; 10]%N)
    as (_ & Hshape & _).
  destruct (Hshape {| ProposalInput.url := Some [104; 116; 116; 112; 115; 58; 47; 47; 120]%N;
                      ProposalInput.text := None |}) as [Hwf _].
  - vm_compute. reflexivity.
  - exact Hwf.
Defined.

(** X19. Whatever the form receives after it is mounted: at most one ingest
    request is out, and one is out exactly while [loading] is set; every
    request sent is well formed; there are never more completions than
    requests; and every call of [onIngestComplete] asks for validation to
    start at once. *)
Theorem ingest_one_at_a_time (es : list ProposalInput.Event) :
  let w := ProposalInput.run ProposalInput.mount es in
  (ProposalInput.in_flight w <= 1)%nat
  /\ (ProposalInput.in_flight w = 1%nat <->
      ProposalInput.loading (ProposalInput.st w) = true)
  /\ Forall ProposalInput.well_formed (ProposalInput.requests w)
  /\ Forall (fun auto => auto = true) (ProposalInput.completions w)
  /\ (length (ProposalInput.completions w) + ProposalInput.in_flight w
      <= length (ProposalInput.requests w))%nat.
Proof.
  cbn zeta. unfold ProposalInput.run.
  assert (forall w, ProposalInput.form_invariant w -> ProposalInput.form_invariant (foldl ProposalInput.step w es))
    as Hrun.
  { induction es as [|e es IH]; intros w Hw; cbn [foldl]; [done|].
    by apply IH, form_step. }
  destruct (Hrun ProposalInput.mount) as (Hf & Hq & Hc & Hn).
  { split; [done|]. split; [constructor|]. split; [constructor|]. cbn. lia. }
  split; [rewrite Hf; destruct (ProposalInput.loading _); lia|].
  split; [rewrite Hf; destruct (ProposalInput.loading _); split; (done || lia)|].
  done.
Qed.
